(** * optimizay: univariate Newton-Raphson and bisection root finding

    Shallow embedding of the notebook [01_univar_newton.ipynb].  The
    notebook computes the [b]-th root of a number [x] by two iterations,
    [root_newton] and [root_binary], each returning the whole list of
    candidates it went through.

    Numbers.  The notebook works on Python's [int] and [float].  The
    code is read twice.

    - [Module Py] is the code over an arithmetic whose operations each
      return a number or raise an exception, and of which nothing else
      is assumed; [Py.binary64] is Python's arithmetic on [int] and
      binary64 [float], with its roundings, [OverflowError] and
      [ZeroDivisionError].  What the functions return, in which order
      they compute and when their loops stop is stated there, and holds
      whatever the rounding.

    - The definitions outside [Module Py] read the same lines on exact
      rationals ([Q], compared with [==]): no rounding, no overflow.
      They state what the method computes in exact arithmetic: which
      functions the lambdas are, where the root lies with respect to the
      starting bracket, which values the example call goes through.
      The real-valued readings of the three lambdas, used for statements
      about derivatives and about real roots, live in [Module Real].

    The exponent [b] is a positive integer (type [positive]);
    [max_iter] is an integer.

    Effects.  Exceptions are values of a result type; a [while] loop is
    run with explicit fuel, and every entry point is shown never to
    exhaust it. *)

From Stdlib Require Import ZArith QArith Qabs Qpower Qround Qreals Reals Psatz Bool List.
From Stdlib Require Import PrimFloat FloatOps SpecFloat.
Import ListNotations.

Local Open Scope Q_scope.

(** ** Results of Python computations *)

Inductive exn : Type := ZeroDivisionError.

Inductive result (A : Type) : Type :=
| Ok (a : A)
| Raise (e : exn)
| OutOfFuel.

Arguments Ok {A} a.
Arguments Raise {A} e.
Arguments OutOfFuel {A}.

Definition bind {A B : Type} (r : result A) (k : A -> result B) : result B :=
  match r with
  | Ok a => k a
  | Raise e => Raise e
  | OutOfFuel => OutOfFuel
  end.

Notation "x <- r ;; k" := (bind r (fun x => k))
  (at level 61, r at next level, right associativity).

(** [while cond: body], unrolled at most [fuel] times. *)
Fixpoint while {S : Type} (fuel : nat) (cond : S -> bool)
         (body : S -> result S) (s : S) : result S :=
  match fuel with
  | O => OutOfFuel
  | Datatypes.S fuel' =>
      if cond s then s' <- body s ;; while fuel' cond body s' else Ok s
  end.

(** Runs of the loop: [steps cond body k s s'] when [k] rounds lead from
    [s] to [s'], the test holding before each. *)
Inductive steps {S : Type} (cond : S -> bool) (body : S -> result S)
  : nat -> S -> S -> Prop :=
| steps_O s : steps cond body O s s
| steps_S k s s1 s' :
    cond s = true -> body s = Ok s1 -> steps cond body k s1 s' ->
    steps cond body (Datatypes.S k) s s'.

(** ** Python arithmetic on exact numbers *)

(** [a > b] *)
Definition gt (a b : Q) : bool := negb (Qle_bool a b).

(** [x ** n] for a positive integer [n] *)
Definition pow (x : Q) (n : positive) : Q := x ^ Zpos n.

(** an integer used as a number *)
Definition num (n : positive) : Q := inject_Z (Zpos n).

(** [a / b], true division *)
Definition truediv (a b : Q) : result Q :=
  if Qeq_bool b 0 then Raise ZeroDivisionError else Ok (a / b).

(** [len(l) < n] *)
Definition len_lt (l : list Q) (n : Z) : bool :=
  (Z.of_nat (length l) <? n)%Z.

(** ** Cost function and its two lambdas *)

(** [L = lambda x_k, x, b: (x_k**b - x)**2] *)
Definition L (x_k x : Q) (b : positive) : Q :=
  pow (pow x_k b - x) 2.

(** [d1L = lambda x_k, x, b: 2*b*(x_k**(b+1) - x*x_k)] *)
Definition d1L (x_k x : Q) (b : positive) : Q :=
  2 * num b * (pow x_k (b + 1) - x * x_k).

(** [d2L = lambda x_k, x, b: 2*b*((b+1)*x_k**b - x)] *)
Definition d2L (x_k x : Q) (b : positive) : Q :=
  2 * num b * (num (b + 1) * pow x_k b - x).

(** ** Newton-Raphson method *)

Record newton_state : Type := NewtonState {
  nw_x_k : Q;
  nw_x_list : list Q
}.

(** [d1L(x_k, x, b) > tol and len(x_list) < max_iter] *)
Definition newton_cond (x : Q) (b : positive) (tol : Q) (max_iter : Z)
           (s : newton_state) : bool :=
  gt (d1L (nw_x_k s) x b) tol && len_lt (nw_x_list s) max_iter.

(** [x_k -= d1L(x_k, x, b)/d2L(x_k, x, b); x_list.append(x_k)] *)
Definition newton_body (x : Q) (b : positive) (s : newton_state)
  : result newton_state :=
  q <- truediv (d1L (nw_x_k s) x b) (d2L (nw_x_k s) x b) ;;
  let x_k := nw_x_k s - q in
  Ok (NewtonState x_k (nw_x_list s ++ [x_k])).

Definition newton_init (x : Q) : newton_state :=
  let x_k := x / 2 in
  NewtonState x_k [x_k].

(** The loop appends once per round and stops once the list has
    [max_iter] elements, so [max_iter] rounds and one last test are all
    it can take. *)
Definition loop_fuel (max_iter : Z) : nat := S (Z.to_nat max_iter).

Definition root_newton (x : Q) (b : positive) (tol : Q) (max_iter : Z)
  : result (list Q) :=
  s <- while (loop_fuel max_iter) (newton_cond x b tol max_iter)
             (newton_body x b) (newton_init x) ;;
  Ok (nw_x_list s).

(** ** Binary search *)

Record binary_state : Type := BinaryState {
  bs_high : Q;
  bs_low : Q;
  bs_mean : Q;
  bs_x_list : list Q
}.

(** [abs(mean**b-x) > tol and len(x_list) < max_iter] *)
Definition binary_cond (x : Q) (b : positive) (tol : Q) (max_iter : Z)
           (s : binary_state) : bool :=
  gt (Qabs (pow (bs_mean s) b - x)) tol && len_lt (bs_x_list s) max_iter.

(** [mean = (high + low) / 2]; [high = mean] if [mean**b > x], else
    [low = mean]; [x_list.append(mean)] *)
Definition binary_body (x : Q) (b : positive) (s : binary_state)
  : result binary_state :=
  let mean := (bs_high s + bs_low s) / 2 in
  if gt (pow mean b) x
  then Ok (BinaryState mean (bs_low s) mean (bs_x_list s ++ [mean]))
  else Ok (BinaryState (bs_high s) mean mean (bs_x_list s ++ [mean])).

Definition binary_init (x : Q) : binary_state :=
  let high := x / 2 in
  let low := 0 in
  let mean := (high + low) / 2 in
  BinaryState high low mean [mean].

Definition root_binary (x : Q) (b : positive) (tol : Q) (max_iter : Z)
  : result (list Q) :=
  s <- while (loop_fuel max_iter) (binary_cond x b tol max_iter)
             (binary_body x b) (binary_init x) ;;
  Ok (bs_x_list s).

(** Default arguments of the two entry points. *)
Definition newton_default_tol : Q := 10 ^ (-17).
Definition binary_default_tol : Q := 10 ^ (-16).
Definition default_max_iter : Z := 2000.

(** ** Loop invariants *)

(** What holds of the Newton loop's state all along a run on a positive
    [x] with a non-negative [tol]: the candidate is positive and is the
    last element collected, the list starts at the starting guess and
    never outgrows [max_iter], and every element but the last passed the
    test and was updated into its successor. *)
Definition newton_inv (x : Q) (b : positive) (tol : Q) (max_iter : Z)
           (s : newton_state) : Prop :=
  0 < nw_x_k s /\
  last (nw_x_list s) 0 = nw_x_k s /\
  nth_error (nw_x_list s) 0 = Some (x / 2) /\
  (Z.of_nat (length (nw_x_list s)) <= Z.max 1 max_iter)%Z /\
  forall k, (S k < length (nw_x_list s))%nat ->
            let t := nth k (nw_x_list s) 0 in
            tol < d1L t x b /\ 0 < d2L t x b /\
            nth (S k) (nw_x_list s) 0 = t - d1L t x b / d2L t x b.

(** Rounds left before the list has [max_iter] elements. *)
Definition rounds_left (max_iter : Z) (l : list Q) : nat :=
  Z.to_nat max_iter - length l.

(** ** The bisection as the specification words it *)

(** The midpoint of a bracket [(high, low)]. *)
Definition midpoint (hl : Q * Q) : Q := (fst hl + snd hl) / 2.

(** One narrowing: [high] becomes the midpoint when its [b]-th power
    exceeds [x], otherwise [low] does. *)
Definition narrow (x : Q) (b : positive) (hl : Q * Q) : Q * Q :=
  if gt (pow (midpoint hl) b) x
  then (midpoint hl, snd hl)
  else (fst hl, midpoint hl).

(** The bracket after [k] narrowings, from [high = x/2], [low = 0]. *)
Fixpoint bracket (x : Q) (b : positive) (k : nat) : Q * Q :=
  match k with
  | O => (x / 2, 0)
  | S k' => narrow x b (bracket x b k')
  end.

(** What holds of the binary search's state all along a run: the bounds
    are the bracket after as many narrowings as rounds were run, the
    mean is the last element collected, the list starts at the first
    midpoint and never outgrows [max_iter], and every element but the
    last passed the test and is followed by the midpoint of the bracket
    of its round. *)
Definition binary_inv (x : Q) (b : positive) (tol : Q) (max_iter : Z)
           (s : binary_state) : Prop :=
  (bs_high s, bs_low s) = bracket x b (length (bs_x_list s) - 1) /\
  last (bs_x_list s) 0 = bs_mean s /\
  nth_error (bs_x_list s) 0 = Some ((x / 2 + 0) / 2) /\
  (Z.of_nat (length (bs_x_list s)) <= Z.max 1 max_iter)%Z /\
  forall k, (S k < length (bs_x_list s))%nat ->
            tol < Qabs (pow (nth k (bs_x_list s) 0) b - x) /\
            nth (S k) (bs_x_list s) 0 = midpoint (bracket x b k).

(** ** States up to equality of rationals *)

(** Two fractions of the same value are the same number to the program;
    runs are compared, and evaluated on reduced fractions, up to that. *)
Definition list_equiv (l l' : list Q) : Prop := Forall2 Qeq l l'.

Definition binary_equiv (s s' : binary_state) : Prop :=
  bs_high s == bs_high s' /\ bs_low s == bs_low s' /\
  bs_mean s == bs_mean s' /\ list_equiv (bs_x_list s) (bs_x_list s').

Definition binary_reduce (s : binary_state) : binary_state :=
  BinaryState (Qred (bs_high s)) (Qred (bs_low s)) (Qred (bs_mean s))
              (map Qred (bs_x_list s)).

(** The loop body followed by the reduction of every fraction. *)
Definition binary_body_reduced (x : Q) (b : positive) (s : binary_state)
  : result binary_state :=
  s' <- binary_body x b s ;; Ok (binary_reduce s').

(** Results agree when both return related values or both fail alike. *)
Definition result_rel {A B : Type} (R : A -> B -> Prop)
           (r : result A) (r' : result B) : Prop :=
  match r, r' with
  | Ok a, Ok a' => R a a'
  | Raise e, Raise e' => e = e'
  | OutOfFuel, OutOfFuel => True
  | _, _ => False
  end.

(** ** The worked example of the notebook *)

(** [x = 144], [b = 2], [tol = 10**-9], default [max_iter]. *)
Definition example_x : Q := 144.
Definition example_b : positive := 2.
Definition example_tol : Q := 10 ^ (-9).

(** The Newton update [x_k - d1L(x_k, x, b)/d2L(x_k, x, b)] as a
    function of the candidate. *)
Definition newton_update (x : Q) (b : positive) (t : Q) : Q :=
  t - d1L t x b / d2L t x b.

(** A number rounded up to forty decimals. *)
Definition round_up (q : Q) : Q :=
  Qred (inject_Z (Qceiling (q * 10 ^ 40)) / 10 ^ 40).

(** Upper bounds for the candidates of the example: each is the update
    of the bound before it, rounded up. *)
Fixpoint example_upper (k : nat) : Q :=
  match k with
  | O => 72
  | S k' => round_up (newton_update example_x example_b (example_upper k'))
  end.

(** ** The lambdas read on real numbers *)

(** The three lambdas are written with [**], [*] and [-] only, so they
    read on any kind of number; here they are on [R], where derivatives
    and real roots can be stated.  [binary_high] and [binary_low] are the
    first two assignments of [root_binary]. *)
Module Real.
Local Open Scope R_scope.

Definition pow (x : R) (n : positive) : R := x ^ Pos.to_nat n.

Definition num (n : positive) : R := IZR (Zpos n).

Definition L (x_k x : R) (b : positive) : R :=
  pow (pow x_k b - x) 2.

Definition d1L (x_k x : R) (b : positive) : R :=
  2 * num b * (pow x_k (b + 1) - x * x_k).

Definition d2L (x_k x : R) (b : positive) : R :=
  2 * num b * (num (b + 1) * pow x_k b - x).

(** [high = x / 2] *)
Definition binary_high (x : R) : R := x / 2.

(** [low = 0] *)
Definition binary_low : R := 0.
End Real.

(** * The code on Python's numbers

    The notebook runs on Python's [int] and [float]: [x / 2] is a true
    division, so every candidate is a binary64 float, each operation
    rounds, a power too large for a float raises [OverflowError] and a
    division by zero raises [ZeroDivisionError].  [Module Py] is the code
    over an arbitrary arithmetic of this kind, every operation of which
    returns a number or raises; nothing is assumed of the operations, so
    what is proved of [Py.root_newton] and [Py.root_binary] holds of the
    code whatever the rounding.  [Py.binary64] is Python's own arithmetic
    on [int] and [float], on which the code is run. *)
Module Py.

Inductive exn : Type := ZeroDivisionError | OverflowError.

Inductive result (A : Type) : Type :=
| Ok (a : A)
| Raise (e : exn).

Arguments Ok {A} a.
Arguments Raise {A} e.

Definition bind {A B : Type} (r : result A) (k : A -> result B) : result B :=
  match r with
  | Ok a => k a
  | Raise e => Raise e
  end.

Notation "x <-- r ;; k" := (bind r (fun x => k))
  (at level 61, r at next level, right associativity).

(** The operations the code uses on numbers, in the order of the source:
    [+], [-], [*], [/], [**] with a positive integer exponent, [abs] and
    [>]; [of_int] is an integer as a number. *)
Record arith : Type := Arith {
  num : Type;
  of_int : Z -> num;
  add : num -> num -> result num;
  sub : num -> num -> result num;
  mul : num -> num -> result num;
  truediv : num -> num -> result num;
  pow : num -> positive -> result num;
  abs : num -> result num;
  gt : num -> num -> result bool
}.

(** [while cond: body], unrolled at most [fuel] times; [None] when the
    fuel runs out. *)
Fixpoint while {S : Type} (fuel : nat) (cond : S -> result bool)
         (body : S -> result S) (s : S) : option (result S) :=
  match fuel with
  | O => None
  | Datatypes.S fuel' =>
      match cond s with
      | Raise e => Some (Raise e)
      | Ok false => Some (Ok s)
      | Ok true =>
          match body s with
          | Raise e => Some (Raise e)
          | Ok s' => while fuel' cond body s'
          end
      end
  end.

(** Runs of the loop: [k] rounds lead from [s] to [s'], the test being
    true before each. *)
Inductive steps {S : Type} (cond : S -> result bool) (body : S -> result S)
  : nat -> S -> S -> Prop :=
| steps_O s : steps cond body O s s
| steps_S k s s1 s' :
    cond s = Ok true -> body s = Ok s1 -> steps cond body k s1 s' ->
    steps cond body (Datatypes.S k) s s'.

(** The variables of [root_newton]: [x_k] and [x_list]. *)
Record newton_state {N : Type} : Type := NewtonState {
  nw_x_k : N;
  nw_x_list : list N
}.
Arguments NewtonState {N} _ _.

(** The variables of [root_binary]: [high], [low], [mean] and [x_list]. *)
Record binary_state {N : Type} : Type := BinaryState {
  bs_high : N;
  bs_low : N;
  bs_mean : N;
  bs_x_list : list N
}.
Arguments BinaryState {N} _ _ _ _.

Section Code.
Context {A : arith}.

(** [len(l) < n] *)
Definition len_lt (l : list (num A)) (n : Z) : bool :=
  (Z.of_nat (length l) <? n)%Z.

(** [L = lambda x_k, x, b: (x_k**b - x)**2] *)
Definition L (x_k x : num A) (b : positive) : result (num A) :=
  p <-- pow A x_k b ;;
  d <-- sub A p x ;;
  pow A d 2.

(** [d1L = lambda x_k, x, b: 2*b*(x_k**(b+1) - x*x_k)] *)
Definition d1L (x_k x : num A) (b : positive) : result (num A) :=
  p <-- pow A x_k (b + 1) ;;
  q <-- mul A x x_k ;;
  d <-- sub A p q ;;
  mul A (of_int A (2 * Zpos b)) d.

(** [d2L = lambda x_k, x, b: 2*b*((b+1)*x_k**b - x)] *)
Definition d2L (x_k x : num A) (b : positive) : result (num A) :=
  p <-- pow A x_k b ;;
  q <-- mul A (of_int A (Zpos b + 1)) p ;;
  d <-- sub A q x ;;
  mul A (of_int A (2 * Zpos b)) d.

(** [d1L(x_k, x, b) > tol and len(x_list) < max_iter] *)
Definition newton_cond (x : num A) (b : positive) (tol : num A)
           (max_iter : Z) (s : newton_state (N := num A)) : result bool :=
  d <-- d1L (nw_x_k s) x b ;;
  g <-- gt A d tol ;;
  Ok (if g then len_lt (nw_x_list s) max_iter else false).

(** [x_k -= d1L(x_k, x, b)/d2L(x_k, x, b); x_list.append(x_k)] *)
Definition newton_body (x : num A) (b : positive) (s : newton_state (N := num A))
  : result (newton_state (N := num A)) :=
  d1 <-- d1L (nw_x_k s) x b ;;
  d2 <-- d2L (nw_x_k s) x b ;;
  q <-- truediv A d1 d2 ;;
  x_k <-- sub A (nw_x_k s) q ;;
  Ok (NewtonState x_k (nw_x_list s ++ [x_k])).

(** [x_k = x / 2; x_list = [x_k]] *)
Definition newton_init (x : num A) : result (newton_state (N := num A)) :=
  x_k <-- truediv A x (of_int A 2) ;;
  Ok (NewtonState x_k [x_k]).

Definition root_newton (x : num A) (b : positive) (tol : num A) (max_iter : Z)
  : option (result (list (num A))) :=
  match newton_init x with
  | Raise e => Some (Raise e)
  | Ok s0 =>
      match while (loop_fuel max_iter) (newton_cond x b tol max_iter)
                  (newton_body x b) s0 with
      | None => None
      | Some (Raise e) => Some (Raise e)
      | Some (Ok s) => Some (Ok (nw_x_list s))
      end
  end.

(** [abs(mean**b-x) > tol and len(x_list) < max_iter] *)
Definition binary_cond (x : num A) (b : positive) (tol : num A)
           (max_iter : Z) (s : binary_state (N := num A)) : result bool :=
  p <-- pow A (bs_mean s) b ;;
  d <-- sub A p x ;;
  a <-- abs A d ;;
  g <-- gt A a tol ;;
  Ok (if g then len_lt (bs_x_list s) max_iter else false).

(** [mean = (high + low) / 2]; [high = mean] if [mean**b > x], else
    [low = mean]; [x_list.append(mean)] *)
Definition binary_body (x : num A) (b : positive) (s : binary_state (N := num A))
  : result (binary_state (N := num A)) :=
  sum <-- add A (bs_high s) (bs_low s) ;;
  mean <-- truediv A sum (of_int A 2) ;;
  p <-- pow A mean b ;;
  g <-- gt A p x ;;
  Ok (if g
      then BinaryState mean (bs_low s) mean (bs_x_list s ++ [mean])
      else BinaryState (bs_high s) mean mean (bs_x_list s ++ [mean])).

(** [high = x / 2; low = 0; mean = (high + low) / 2; x_list = [mean]] *)
Definition binary_init (x : num A) : result (binary_state (N := num A)) :=
  high <-- truediv A x (of_int A 2) ;;
  sum <-- add A high (of_int A 0) ;;
  mean <-- truediv A sum (of_int A 2) ;;
  Ok (BinaryState high (of_int A 0) mean [mean]).

Definition root_binary (x : num A) (b : positive) (tol : num A) (max_iter : Z)
  : option (result (list (num A))) :=
  match binary_init x with
  | Raise e => Some (Raise e)
  | Ok s0 =>
      match while (loop_fuel max_iter) (binary_cond x b tol max_iter)
                  (binary_body x b) s0 with
      | None => None
      | Some (Raise e) => Some (Raise e)
      | Some (Ok s) => Some (Ok (bs_x_list s))
      end
  end.

End Code.

(** ** Python's [int] and [float] *)

Inductive pynum : Type :=
| PInt (z : Z)
| PFloat (f : float).

(** [float(z)]: the nearest float, [OverflowError] beyond the range. *)
Definition float_of_int (z : Z) : result float :=
  match binary_normalize prec emax z 0 false with
  | S754_infinity _ => Raise OverflowError
  | r => Ok (SF2Prim r)
  end.

Definition to_float (v : pynum) : result float :=
  match v with
  | PInt z => float_of_int z
  | PFloat f => Ok f
  end.

(** The exact value of a finite float, and of a number. *)
Definition float_value (f : float) : Q :=
  match Prim2SF f with
  | S754_finite s m e =>
      (if s then inject_Z (Zneg m) else inject_Z (Zpos m)) * 2 ^ e
  | _ => 0
  end.

Definition value (v : pynum) : Q :=
  match v with
  | PInt z => inject_Z z
  | PFloat f => float_value f
  end.

(** [+], [-], [*]: exact on two integers, else on floats (no exception
    but that of the conversion of an integer). *)
Definition arith_op (on_int : Z -> Z -> Z) (on_float : float -> float -> float)
           (v w : pynum) : result pynum :=
  match v, w with
  | PInt a, PInt b => Ok (PInt (on_int a b))
  | _, _ =>
      a <-- to_float v ;;
      b <-- to_float w ;;
      Ok (PFloat (on_float a b))
  end.

(** [/] on two integers: the correctly rounded quotient. *)
Definition int_truediv (a b : Z) : result float :=
  match a, b with
  | _, Z0 => Raise ZeroDivisionError
  | Z0, _ => Ok (if (b <? 0)%Z then neg_zero else zero)
  | _, _ =>
      match SFdiv prec emax
                  (S754_finite (a <? 0)%Z (Z.to_pos (Z.abs a)) 0)
                  (S754_finite (b <? 0)%Z (Z.to_pos (Z.abs b)) 0) with
      | S754_infinity _ => Raise OverflowError
      | r => Ok (SF2Prim r)
      end
  end.

Definition py_truediv (v w : pynum) : result pynum :=
  match v, w with
  | PInt a, PInt b => f <-- int_truediv a b ;; Ok (PFloat f)
  | _, _ =>
      a <-- to_float v ;;
      b <-- to_float w ;;
      if is_zero b then Raise ZeroDivisionError else Ok (PFloat (a / b)%float)
  end.

(** [f ** n] for a float and a positive integer [n]: the power rounded
    to the nearest float (the C library's [pow] is within one unit in
    the last place of it), [OverflowError] when a finite [f] gives an
    infinite result. *)
Definition float_pow (f : float) (n : positive) : result float :=
  match Prim2SF f with
  | S754_finite s m e =>
      match binary_round prec emax (s && Z.odd (Zpos n)) (m ^ n) (e * Zpos n) with
      | S754_infinity _ => Raise OverflowError
      | r => Ok (SF2Prim r)
      end
  | S754_infinity s => Ok (if s && Z.odd (Zpos n) then neg_infinity else infinity)
  | S754_zero s => Ok (if s && Z.odd (Zpos n) then neg_zero else zero)
  | S754_nan => Ok nan
  end.

Definition py_pow (v : pynum) (n : positive) : result pynum :=
  match v with
  | PInt z => Ok (PInt (z ^ Zpos n))
  | PFloat f => r <-- float_pow f n ;; Ok (PFloat r)
  end.

Definition py_abs (v : pynum) : result pynum :=
  match v with
  | PInt z => Ok (PInt (Z.abs z))
  | PFloat f => Ok (PFloat (PrimFloat.abs f))
  end.

(** [f > z] for a float and an integer compares the exact values. *)
Definition float_gt_int (f : float) (z : Z) : bool :=
  match Prim2SF f with
  | S754_nan => false
  | S754_infinity s => negb s
  | _ => match float_value f ?= inject_Z z with Gt => true | _ => false end
  end.

Definition int_gt_float (z : Z) (f : float) : bool :=
  match Prim2SF f with
  | S754_nan => false
  | S754_infinity s => s
  | _ => match inject_Z z ?= float_value f with Gt => true | _ => false end
  end.

Definition py_gt (v w : pynum) : result bool :=
  match v, w with
  | PInt a, PInt b => Ok (b <? a)%Z
  | PFloat a, PFloat b => Ok (b <? a)%float
  | PFloat a, PInt b => Ok (float_gt_int a b)
  | PInt a, PFloat b => Ok (int_gt_float a b)
  end.

Definition binary64 : arith :=
  Arith pynum PInt
        (arith_op Z.add PrimFloat.add)
        (arith_op Z.sub PrimFloat.sub)
        (arith_op Z.mul PrimFloat.mul)
        py_truediv py_pow py_abs py_gt.

(** The float nearest to [n / d], as the literal or the division gives
    it. *)
Definition lit (n : Z) (d : positive) : pynum :=
  match int_truediv n (Zpos d) with
  | Ok f => PFloat f
  | Raise _ => PFloat nan
  end.

End Py.


(** ** Where a loop raises *)


(** ** Exact arithmetic as an arithmetic of [Module Py] *)

(** The operations on [Q]: none rounds, and only a division by zero
    raises. *)
Definition exact : Py.arith :=
  Py.Arith Q inject_Z
           (fun a c => Py.Ok (a + c))
           (fun a c => Py.Ok (a - c))
           (fun a c => Py.Ok (a * c))
           (fun a c => if Qeq_bool c 0 then Py.Raise Py.ZeroDivisionError
                       else Py.Ok (a / c))
           (fun a n => Py.Ok (pow a n))
           (fun a => Py.Ok (Qabs a))
           (fun a c => Py.Ok (gt a c)).



(** * The exact reading: properties *)

(** ** Comparisons, powers and integers *)

Lemma gt_true (a b : Q) : gt a b = true <-> b < a.
Proof.
  unfold gt. rewrite negb_true_iff, <- not_true_iff_false, Qle_bool_iff.
  split; [apply Qnot_le_lt | apply Qlt_not_le].
Qed.

Lemma gt_false (a b : Q) : gt a b = false <-> a <= b.
Proof.
  unfold gt. now rewrite negb_false_iff, Qle_bool_iff.
Qed.

Lemma len_lt_true (l : list Q) (n : Z) :
  len_lt l n = true <-> (Z.of_nat (length l) < n)%Z.
Proof. unfold len_lt. apply Z.ltb_lt. Qed.

Lemma len_lt_false (l : list Q) (n : Z) :
  len_lt l n = false <-> (n <= Z.of_nat (length l))%Z.
Proof. unfold len_lt. apply Z.ltb_ge. Qed.

#[global] Instance pow_comp : Proper (Qeq ==> eq ==> Qeq) pow.
Proof. intros x y E n ? <-. unfold pow. now rewrite E. Qed.

Lemma pow_1 (t : Q) : pow t 1 == t.
Proof. unfold pow. apply Qpower_1_r. Qed.

Lemma pow_succ (t : Q) (n : positive) : pow t (n + 1) == t * pow t n.
Proof.
  unfold pow. rewrite Pos2Z.inj_add, Qpower_plus' by lia.
  rewrite Qpower_1_r. ring.
Qed.

Lemma pow_pos (t : Q) (n : positive) : 0 < t -> 0 < pow t n.
Proof. intros H. now apply Qpower_0_lt. Qed.

Lemma pow_nonneg (t : Q) (n : positive) : 0 <= t -> 0 <= pow t n.
Proof. intros H. now apply Qpower_0_le. Qed.

Lemma pow_div (s t : Q) (n : positive) : pow (s / t) n == pow s n / pow t n.
Proof. unfold pow. apply Qdiv_power. Qed.

Lemma num_ge_1 (n : positive) : 1 <= num n.
Proof.
  unfold num. change 1 with (inject_Z 1). rewrite <- Zle_Qle. lia.
Qed.

Lemma num_succ (n : positive) : num (n + 1) == num n + 1.
Proof.
  unfold num. rewrite Pos2Z.inj_add, inject_Z_plus. reflexivity.
Qed.

#[global] Instance d1L_comp : Proper (Qeq ==> Qeq ==> eq ==> Qeq) d1L.
Proof. intros t t' Et x x' Ex b ? <-. unfold d1L. now rewrite Et, Ex. Qed.

#[global] Instance d2L_comp : Proper (Qeq ==> Qeq ==> eq ==> Qeq) d2L.
Proof. intros t t' Et x x' Ex b ? <-. unfold d2L. now rewrite Et, Ex. Qed.

(** The first lambda factors through the residual [x_k**b - x]. *)
Lemma d1L_factor (t x : Q) (b : positive) :
  d1L t x b == 2 * num b * t * (pow t b - x).
Proof. unfold d1L. rewrite pow_succ. ring. Qed.

(** ** The [while] loop *)

Section While.
Context {S : Type}.
Variables (cond : S -> bool) (body : S -> result S).

Lemma steps_snoc k s s1 s' :
  steps cond body k s s1 -> cond s1 = true -> body s1 = Ok s' ->
  steps cond body (Datatypes.S k) s s'.
Proof.
  induction 1 as [s|k s s2 s1 Hc Hb _ IH]; intros Hc1 Hb1.
  - eapply steps_S; eauto. constructor.
  - eapply steps_S; eauto.
Qed.


Lemma steps_while k s s' fuel :
  steps cond body k s s' -> cond s' = false -> (k < fuel)%nat ->
  while fuel cond body s = Ok s'.
Proof.
  intros H Hc'. revert fuel.
  induction H as [s|k s s1 s' Hc Hb _ IH]; intros [|fuel] Hlt; try lia; simpl.
  - now rewrite Hc'.
  - rewrite Hc, Hb. simpl. apply IH; [assumption|lia].
Qed.


(** With an invariant under which the body returns and a measure that
    every round decreases, fuel above the measure is enough. *)
Lemma while_total (I : S -> Prop) (m : S -> nat) :
  (forall s, I s -> cond s = true ->
             exists s', body s = Ok s' /\ I s' /\ (m s' < m s)%nat) ->
  forall fuel s, I s -> (m s < fuel)%nat ->
  exists s', while fuel cond body s = Ok s' /\ I s' /\ cond s' = false.
Proof.
  intros HI. induction fuel as [|fuel IH]; intros s Hs Hm; [lia|].
  simpl. destruct (cond s) eqn:Hc.
  - destruct (HI s Hs Hc) as (s1 & -> & Hs1 & Hlt). simpl.
    apply IH; [assumption|lia].
  - exists s. auto.
Qed.

End While.

(** ** Lists *)

Lemma nth_pred_last (l : list Q) (d : Q) :
  nth (length l - 1) l d = last l d.
Proof.
  induction l as [|a [|a' l] IH]; try reflexivity.
  change (last (a :: a' :: l) d) with (last (a' :: l) d).
  rewrite <- IH. simpl. now rewrite Nat.sub_0_r.
Qed.

Lemma nth_snoc_old (l : list Q) (v d : Q) (k : nat) :
  (k < length l)%nat -> nth k (l ++ [v]) d = nth k l d.
Proof. intros H. now apply app_nth1. Qed.

Lemma nth_snoc_new (l : list Q) (v d : Q) : nth (length l) (l ++ [v]) d = v.
Proof. rewrite app_nth2, Nat.sub_diag by lia. reflexivity. Qed.

(** ** Newton-Raphson: one round *)

Lemma truediv_ok (a d : Q) : ~ d == 0 -> truediv a d = Ok (a / d).
Proof.
  intros H. unfold truediv.
  destruct (Qeq_bool d 0) eqn:E; [|reflexivity].
  now apply Qeq_bool_iff in E.
Qed.

Lemma truediv_zero (a d : Q) : d == 0 -> truediv a d = Raise ZeroDivisionError.
Proof.
  intros H. unfold truediv. now rewrite (Qeq_eq_bool _ _ H).
Qed.

(** A positive candidate that fails the stopping test lies above the
    root, has a positive second lambda, and its update is positive
    again: the division of the update is never by zero. *)
Lemma newton_round_positive (t x tol : Q) (b : positive) :
  0 < t -> 0 < x -> 0 <= tol -> tol < d1L t x b ->
  x < pow t b /\ 0 < d2L t x b /\ 0 < t - d1L t x b / d2L t x b.
Proof.
  intros Ht Hx Htol Hd.
  assert (Hp := pow_pos t b Ht).
  assert (Hb := num_ge_1 b).
  assert (H1 : 0 < 2 * num b * t * (pow t b - x))
    by (rewrite <- d1L_factor; lra).
  assert (Hroot : x < pow t b).
  { destruct (Qlt_le_dec x (pow t b)) as [|Hle]; [assumption|exfalso].
    assert (0 <= num b * t) by nra.
    assert (2 * num b * t * (pow t b - x) <= 0) by nra. lra. }
  assert (H2 : d2L t x b == 2 * num b * ((num b + 1) * pow t b - x))
    by (unfold d2L; rewrite num_succ; reflexivity).
  assert (Hd2 : 0 < d2L t x b).
  { rewrite H2. assert (0 < num b * pow t b) by nra. nra. }
  split; [assumption|split; [assumption|]].
  assert (Hq : d1L t x b / d2L t x b < t).
  { apply Qlt_shift_div_r; [assumption|].
    rewrite d1L_factor, H2.
    assert (0 < num b * t) by nra.
    assert (0 < num b * pow t b) by nra.
    assert (0 < (num b * t) * (num b * pow t b)) by nra.
    assert (E : t * (2 * num b * ((num b + 1) * pow t b - x))
                - 2 * num b * t * (pow t b - x)
                == 2 * ((num b * t) * (num b * pow t b))) by ring.
    lra. }
  lra.
Qed.

Lemma newton_cond_true x b tol max_iter s :
  newton_cond x b tol max_iter s = true <->
  tol < d1L (nw_x_k s) x b /\ (Z.of_nat (length (nw_x_list s)) < max_iter)%Z.
Proof.
  unfold newton_cond. now rewrite andb_true_iff, gt_true, len_lt_true.
Qed.

Lemma newton_cond_false x b tol max_iter s :
  newton_cond x b tol max_iter s = false <->
  d1L (nw_x_k s) x b <= tol \/ (max_iter <= Z.of_nat (length (nw_x_list s)))%Z.
Proof.
  unfold newton_cond. now rewrite andb_false_iff, gt_false, len_lt_false.
Qed.



Lemma newton_inv_init x b tol max_iter :
  0 < x -> newton_inv x b tol max_iter (newton_init x).
Proof.
  intros Hx. unfold newton_inv, newton_init. simpl.
  repeat split; try reflexivity; try lia; try lra.
  apply Qlt_shift_div_l; lra.
Qed.

Lemma newton_inv_round x b tol max_iter s :
  0 < x -> 0 <= tol ->
  newton_inv x b tol max_iter s ->
  newton_cond x b tol max_iter s = true ->
  exists s', newton_body x b s = Ok s' /\
             newton_inv x b tol max_iter s' /\
             (rounds_left max_iter (nw_x_list s') <
              rounds_left max_iter (nw_x_list s))%nat.
Proof.
  intros Hx Htol (Hpos & Hlast & Hhd & Hlen & Hall) Hc.
  apply newton_cond_true in Hc. destruct Hc as [Hd Hn].
  destruct (newton_round_positive _ _ _ b Hpos Hx Htol Hd) as (_ & Hd2 & Hnext).
  unfold newton_body. rewrite truediv_ok by lra. simpl.
  eexists. split; [reflexivity|].
  destruct s as [t l]. simpl in *.
  assert (Hne : (0 < length l)%nat)
    by (destruct l; [discriminate|simpl; lia]).
  split; [|unfold rounds_left; simpl; rewrite last_length; lia].
  unfold newton_inv. cbn [nw_x_k nw_x_list]. rewrite last_length.
  split; [assumption|]. split; [apply last_last|].
  split; [rewrite nth_error_app1 by assumption; assumption|].
  split; [lia|].
  intros k Hk. destruct (Nat.eq_dec (S k) (length l)) as [E|E].
  - rewrite E, nth_snoc_new, nth_snoc_old by lia.
    replace k with (length l - 1)%nat by lia.
    rewrite nth_pred_last, Hlast. auto.
  - rewrite !nth_snoc_old by lia. apply Hall. lia.
Qed.

(** On a positive [x] with a non-negative [tol], [root_newton] returns:
    it neither raises nor runs out of fuel, and the state it stops in
    satisfies the invariant and fails the loop test. *)
Lemma root_newton_returns x b tol max_iter :
  0 < x -> 0 <= tol ->
  exists s, while (loop_fuel max_iter) (newton_cond x b tol max_iter)
                  (newton_body x b) (newton_init x) = Ok s /\
            root_newton x b tol max_iter = Ok (nw_x_list s) /\
            newton_inv x b tol max_iter s /\
            newton_cond x b tol max_iter s = false.
Proof.
  intros Hx Htol. unfold root_newton.
  destruct (while_total (newton_cond x b tol max_iter) (newton_body x b)
              (newton_inv x b tol max_iter)
              (fun s => rounds_left max_iter (nw_x_list s)))
    with (fuel := loop_fuel max_iter) (s := newton_init x)
    as (s & -> & Hs & Hc).
  - intros s Hs Hc. now apply newton_inv_round.
  - now apply newton_inv_init.
  - unfold rounds_left, loop_fuel. simpl. lia.
  - exists s. auto.
Qed.

(** ** Newton-Raphson: the signed stopping test *)

Lemma root_newton_stops_at_once (x : Q) (b : positive) (tol : Q) (max_iter : Z) :
  d1L (x / 2) x b <= tol -> root_newton x b tol max_iter = Ok [x / 2].
Proof.
  intros H. unfold root_newton, loop_fuel. simpl.
  unfold newton_cond. simpl.
  now rewrite (proj2 (gt_false _ _) H).
Qed.

(** At the starting guess the first lambda is non-positive as soon as
    [(x/2)**b <= x]. *)
Lemma d1L_start_nonpos (x : Q) (b : positive) :
  0 < x -> pow (x / 2) b <= x -> d1L (x / 2) x b <= 0.
Proof.
  intros Hx Hp. rewrite d1L_factor.
  assert (Hb := num_ge_1 b).
  assert (0 < x / 2) by (apply Qlt_shift_div_l; lra).
  assert (0 <= num b * (x / 2)) by nra.
  nra.
Qed.

Lemma start_below_b1 (x : Q) : 0 < x -> pow (x / 2) 1 <= x.
Proof.
  intros Hx. rewrite pow_1. apply Qle_shift_div_r; lra.
Qed.

(** ** From rationals to reals *)

Lemma Q2R_pow (q : Q) (n : positive) : Q2R (pow q n) = Real.pow (Q2R q) n.
Proof.
  unfold Real.pow. induction n as [|n IH] using Pos.peano_ind.
  - rewrite (Qeq_eqR _ _ (pow_1 q)). simpl. ring.
  - rewrite <- Pos.add_1_r, (Qeq_eqR _ _ (pow_succ q n)), Q2R_mult, IH.
    rewrite Pos2Nat.inj_add. change (Pos.to_nat 1) with 1%nat.
    rewrite Nat.add_1_r. simpl. ring.
Qed.

Lemma Q2R_num (n : positive) : Q2R (num n) = Real.num n.
Proof.
  unfold num, Real.num, Q2R. simpl. field.
Qed.

Lemma Q2R_2 : Q2R 2 = 2%R.
Proof. unfold Q2R. simpl. field. Qed.

Lemma Q2R_L (t x : Q) (b : positive) :
  Q2R (L t x b) = Real.L (Q2R t) (Q2R x) b.
Proof.
  unfold L, Real.L. now rewrite Q2R_pow, Q2R_minus, Q2R_pow.
Qed.

Lemma Q2R_d1L (t x : Q) (b : positive) :
  Q2R (d1L t x b) = Real.d1L (Q2R t) (Q2R x) b.
Proof.
  unfold d1L, Real.d1L.
  now rewrite !Q2R_mult, Q2R_minus, Q2R_mult, Q2R_pow, Q2R_num, Q2R_2.
Qed.

Lemma Q2R_d2L (t x : Q) (b : positive) :
  Q2R (d2L t x b) = Real.d2L (Q2R t) (Q2R x) b.
Proof.
  unfold d2L, Real.d2L.
  now rewrite !Q2R_mult, Q2R_minus, Q2R_mult, Q2R_pow, !Q2R_num, Q2R_2.
Qed.

Lemma Q2R_binary_init (x : Q) :
  Q2R (bs_high (binary_init x)) = Real.binary_high (Q2R x) /\
  Q2R (bs_low (binary_init x)) = Real.binary_low.
Proof.
  unfold Real.binary_high, Real.binary_low. simpl. split.
  - unfold Qdiv. rewrite Q2R_mult, Q2R_inv by discriminate. now rewrite Q2R_2.
  - unfold Q2R. simpl. field.
Qed.

(** ** Derivatives of the cost function *)

Section Derivatives.
Local Open Scope R_scope.

Lemma derivable_pt_lim_ext (f g : R -> R) (t l : R) :
  (forall u, f u = g u) -> derivable_pt_lim f t l -> derivable_pt_lim g t l.
Proof.
  intros E H eps Heps. destruct (H eps Heps) as [delta Hd].
  exists delta. intros h Hh Hlt. rewrite <- !E. now apply Hd.
Qed.

(** The derivative of [L] in its first argument, by the chain rule. *)
Lemma L_derivative (x : R) (b : positive) (t : R) :
  derivable_pt_lim (fun u => Real.L u x b) t
    (2 * Real.num b * (t ^ (Pos.to_nat b - 1) * (Real.pow t b - x))).
Proof.
  unfold Real.L, Real.pow.
  set (n := Pos.to_nat b).
  assert (Hn : Real.num b = INR n)
    by (unfold Real.num, n; now rewrite INR_IZR_INZ, positive_nat_Z).
  pose (inner := ((fun u => u ^ n) - fct_cte x)%F).
  apply derivable_pt_lim_ext
    with (f := comp (fun v => v ^ Pos.to_nat 2) inner); [reflexivity|].
  replace (2 * Real.num b * (t ^ (n - 1) * (t ^ n - x)))
    with ((INR 2 * inner t ^ pred 2) * (INR n * t ^ pred n - 0)).
  - apply derivable_pt_lim_comp.
    + apply derivable_pt_lim_minus;
        [apply derivable_pt_lim_pow|apply derivable_pt_lim_const].
    + apply (derivable_pt_lim_pow (inner t) 2).
  - rewrite Hn. unfold inner, minus_fct, fct_cte.
    replace (pred n) with (n - 1)%nat by lia. simpl. ring.
Qed.

(** The second lambda is the derivative of the first, for every [b]. *)
Lemma d1L_derivative (x : R) (b : positive) (t : R) :
  derivable_pt_lim (fun u => Real.d1L u x b) t (Real.d2L t x b).
Proof.
  unfold Real.d1L, Real.d2L, Real.pow.
  assert (Hn : Real.num (b + 1) = INR (Pos.to_nat (b + 1)))
    by (unfold Real.num; now rewrite INR_IZR_INZ, positive_nat_Z).
  assert (Hp : pred (Pos.to_nat (b + 1)) = Pos.to_nat b)
    by (rewrite Pos2Nat.inj_add; change (Pos.to_nat 1) with 1%nat; lia).
  apply derivable_pt_lim_ext
    with (f := mult_real_fct (2 * Real.num b)
                 ((fun u => u ^ Pos.to_nat (b + 1)) - mult_real_fct x id)%F);
    [reflexivity|].
  rewrite Hn, <- Hp.
  replace (INR (Pos.to_nat (b + 1)) * t ^ pred (Pos.to_nat (b + 1)) - x)
    with (INR (Pos.to_nat (b + 1)) * t ^ pred (Pos.to_nat (b + 1)) - x * 1)
    by ring.
  apply derivable_pt_lim_scal, derivable_pt_lim_minus.
  - apply derivable_pt_lim_pow.
  - apply derivable_pt_lim_scal, derivable_pt_lim_id.
Qed.

(** For [b = 2] the first lambda is the derivative of [L]. *)
Lemma d1L_derivative_of_L_b2 (x t : R) :
  derivable_pt_lim (fun u => Real.L u x 2) t (Real.d1L t x 2).
Proof.
  replace (Real.d1L t x 2)
    with (2 * Real.num 2 * (t ^ (Pos.to_nat 2 - 1) * (Real.pow t 2 - x))).
  - apply L_derivative.
  - unfold Real.d1L, Real.pow, Real.num. simpl. ring.
Qed.
End Derivatives.

(** C3.  The lambdas are not the derivatives of [L] for every [b]: at
    [x_k = 2], [x = 1], [b = 1] the loss is [(x_k - 1)**2], whose first
    derivative [2*(x_k - 1)] is [2] and whose second derivative is [2],
    but [d1L(2, 1, 1) = 4] and [d2L(2, 1, 1) = 6]. *)
Theorem d1L_d2L_not_derivatives_of_L :
  (forall t, derivable_pt_lim (fun u => Real.L u 1 1) t (2 * (t - 1)))%R /\
  (derivable_pt_lim (fun t => 2 * (t - 1)) 2 2)%R /\
  (Real.d1L 2 1 1 = 4 /\ Real.d2L 2 1 1 = 6)%R /\
  (Real.d1L 2 1 1 <> 2 * (2 - 1) /\ Real.d2L 2 1 1 <> 2)%R /\
  d1L 2 1 1 == 4 /\ d2L 2 1 1 == 6.
Proof.
  assert (H1 : (Real.d1L 2 1 1 = 4)%R)
    by (unfold Real.d1L, Real.pow, Real.num; simpl; ring).
  assert (H2 : (Real.d2L 2 1 1 = 6)%R)
    by (unfold Real.d2L, Real.pow, Real.num; simpl; ring).
  split; [|split; [|split; [|split]]].
  - intros t.
    replace (2 * (t - 1))%R
      with (2 * Real.num 1 * (t ^ (Pos.to_nat 1 - 1) * (Real.pow t 1 - 1)))%R.
    + apply L_derivative.
    + unfold Real.pow, Real.num. simpl. ring.
  - assert (H : derivable_pt_lim (mult_real_fct 2 (id - fct_cte 1)%F) 2
                  (2 * (1 - 0))%R)
      by (apply derivable_pt_lim_scal, derivable_pt_lim_minus;
          [apply derivable_pt_lim_id|apply derivable_pt_lim_const]).
    replace (2 * (1 - 0))%R with 2%R in H by ring.
    revert H. now apply derivable_pt_lim_ext.
  - now split.
  - rewrite H1, H2. split; intros E; lra.
  - split; reflexivity.
Qed.

(** ** The starting bracket of the binary search *)

Section Bracket.
Local Open Scope R_scope.

Lemma pow_ge_square (y : R) (n : nat) :
  (2 <= n)%nat -> 1 <= y -> y * y <= y ^ n.
Proof.
  intros Hn Hy. destruct n as [|[|m]]; try lia. simpl.
  assert (1 <= y ^ m) by now apply pow_R1_Rle.
  nra.
Qed.

(** C5, amended.  For every real [x >= 4] and every integer [b >= 2],
    each non-negative real [y] with [y**b = x] lies in the starting
    bracket of [root_binary], [0 <= y <= x/2]; these bounds are the
    real readings of the [low] and [high] that [root_binary] starts
    from. *)
Theorem root_in_starting_bracket :
  (forall (x : R) (b : positive) (y : R),
      4 <= x -> (2 <= b)%positive -> 0 <= y -> Real.pow y b = x ->
      Real.binary_low <= y <= Real.binary_high x) /\
  (forall q : Q,
      Q2R (bs_low (binary_init q)) = Real.binary_low /\
      Q2R (bs_high (binary_init q)) = Real.binary_high (Q2R q)).
Proof.
  split.
  - intros x b y Hx Hb Hy Hroot.
    unfold Real.binary_low, Real.binary_high, Real.pow in *.
    split; [assumption|].
    destruct (Rle_lt_dec y (x / 2)) as [|Hgt]; [assumption|exfalso].
    assert (Hy2 : 2 < y) by lra.
    assert (Hsq : y * y <= y ^ Pos.to_nat b)
      by (apply pow_ge_square; [apply Pos2Nat.inj_le in Hb; simpl in Hb|]; lra || lia).
    nra.
  - intros q. destruct (Q2R_binary_init q). now split.
Qed.

Lemma root_in_starting_bracket_witness :
  Real.binary_low <= 2 <= Real.binary_high 4.
Proof.
  apply (proj1 root_in_starting_bracket 4 2%positive 2).
  - lra.
  - apply Pos.le_refl.
  - lra.
  - unfold Real.pow. simpl. ring.
Defined.

(** The bound [4] cannot be lowered: for [b = 2] every [x] in
    [(0, 4)] has its square root above [x/2]. *)
Lemma square_root_outside_bracket (x y : R) :
  0 < x < 4 -> 0 <= y -> Real.pow y 2 = x -> Real.binary_high x < y.
Proof.
  intros Hx Hy Hroot. unfold Real.binary_high, Real.pow in *. simpl in Hroot.
  destruct (Rlt_le_dec (x / 2) y) as [|Hle]; [assumption|exfalso].
  assert (y * y <= x / 2 * (x / 2)) by nra. nra.
Qed.

(** C5 as stated fails at [x = 1], [b = 2]: the square root of [1] is
    [1], above the starting upper bound [1/2]. *)
Lemma root_outside_starting_bracket :
  1 <= 1 /\ (2 <= 2)%positive /\ 0 <= 1 /\ Real.pow 1 2 = 1 /\
  Q2R (bs_high (binary_init 1)) = Real.binary_high 1 /\
  ~ (Real.binary_low <= 1 <= Real.binary_high 1).
Proof.
  split; [lra|]. split; [apply Pos.le_refl|]. split; [lra|].
  split; [unfold Real.pow; simpl; ring|].
  split.
  { rewrite (proj1 (Q2R_binary_init 1)). f_equal. unfold Q2R. simpl. field. }
  unfold Real.binary_high. lra.
Qed.
End Bracket.

(** ** Newton-Raphson: where the signed test stops at once *)

Section SignedTest.
Local Open Scope R_scope.

Lemma Rpower_2_root (b : positive) :
  (2 <= b)%positive ->
  Rpower 2 (IZR (Zpos b) / IZR (Zpos b - 1)) ^ (Pos.to_nat b - 1)
  = 2 ^ Pos.to_nat b.
Proof.
  intros Hb.
  assert (Hn : (2 <= Pos.to_nat b)%nat) by (apply Pos2Nat.inj_le in Hb; simpl in Hb; lia).
  assert (E1 : IZR (Zpos b - 1) = INR (Pos.to_nat b - 1)).
  { rewrite INR_IZR_INZ. f_equal. lia. }
  assert (E2 : IZR (Zpos b) = INR (Pos.to_nat b)).
  { rewrite INR_IZR_INZ. f_equal. lia. }
  assert (Hnz : INR (Pos.to_nat b - 1) <> 0) by (apply not_0_INR; lia).
  rewrite <- Rpower_pow by apply exp_pos.
  rewrite Rpower_mult, E1, E2.
  replace (INR (Pos.to_nat b) / INR (Pos.to_nat b - 1) * INR (Pos.to_nat b - 1))
    with (INR (Pos.to_nat b)) by (field; assumption).
  apply Rpower_pow. lra.
Qed.

Lemma start_below_real (X : R) (b : positive) :
  0 < X -> (2 <= b)%positive ->
  X <= Rpower 2 (IZR (Zpos b) / IZR (Zpos b - 1)) ->
  Real.pow (X / 2) b <= X.
Proof.
  intros HX Hb Hle. unfold Real.pow.
  assert (Hn : (2 <= Pos.to_nat b)%nat) by (apply Pos2Nat.inj_le in Hb; simpl in Hb; lia).
  assert (H1 : X ^ (Pos.to_nat b - 1) <= 2 ^ Pos.to_nat b).
  { rewrite <- Rpower_2_root by assumption. apply pow_incr. lra. }
  replace (Pos.to_nat b) with (S (Pos.to_nat b - 1)) at 1 by lia.
  unfold Rdiv. rewrite Rpow_mult_distr.
  replace ((/ 2) ^ S (Pos.to_nat b - 1)) with (/ 2 ^ Pos.to_nat b).
  - simpl.
    assert (Hp : 0 < 2 ^ Pos.to_nat b) by (apply pow_lt; lra).
    apply Rmult_le_reg_r with (2 ^ Pos.to_nat b); [assumption|].
    rewrite Rmult_assoc, Rinv_l by lra. nra.
  - rewrite pow_inv. f_equal. f_equal. lia.
Qed.
End SignedTest.

Lemma start_below_root_bound (x : Q) (b : positive) :
  0 < x -> (2 <= b)%positive ->
  (Q2R x <= Rpower 2 (IZR (Zpos b) / IZR (Zpos b - 1)))%R ->
  pow (x / 2) b <= x.
Proof.
  intros Hx Hb Hle. apply Rle_Qle. rewrite Q2R_pow.
  unfold Qdiv. rewrite Q2R_mult, Q2R_inv, Q2R_2 by discriminate.
  apply start_below_real; try assumption.
  replace 0%R with (Q2R 0) by (unfold Q2R; simpl; field).
  now apply Qlt_Rlt.
Qed.

(** ** Binary search: one round *)

Lemma binary_cond_true x b tol max_iter s :
  binary_cond x b tol max_iter s = true <->
  tol < Qabs (pow (bs_mean s) b - x) /\
  (Z.of_nat (length (bs_x_list s)) < max_iter)%Z.
Proof.
  unfold binary_cond. now rewrite andb_true_iff, gt_true, len_lt_true.
Qed.


(** A round always returns; it appends the midpoint of the bounds it
    found, and moves one of them there. *)
Lemma binary_body_ok x b s :
  exists s', binary_body x b s = Ok s' /\
    bs_mean s' = midpoint (bs_high s, bs_low s) /\
    (bs_high s', bs_low s') = narrow x b (bs_high s, bs_low s) /\
    bs_x_list s' = bs_x_list s ++ [bs_mean s'].
Proof.
  unfold binary_body, narrow, midpoint. simpl.
  destruct (gt _ x); eexists; (split; [reflexivity|]); simpl; auto.
Qed.

Lemma binary_inv_init x b tol max_iter :
  binary_inv x b tol max_iter (binary_init x).
Proof.
  unfold binary_inv, binary_init. simpl.
  repeat split; try reflexivity; lia.
Qed.

Lemma binary_inv_round x b tol max_iter s :
  binary_inv x b tol max_iter s ->
  binary_cond x b tol max_iter s = true ->
  exists s', binary_body x b s = Ok s' /\
             binary_inv x b tol max_iter s' /\
             (rounds_left max_iter (bs_x_list s') <
              rounds_left max_iter (bs_x_list s))%nat.
Proof.
  intros (Hbr & Hlast & Hhd & Hlen & Hall) Hc.
  apply binary_cond_true in Hc. destruct Hc as [Hd Hn].
  destruct (binary_body_ok x b s) as (s' & Hb & Hm & Hnar & Hl).
  exists s'. split; [assumption|].
  assert (Hne : (0 < length (bs_x_list s))%nat)
    by (destruct (bs_x_list s); [discriminate|simpl; lia]).
  split; [|unfold rounds_left; rewrite Hl, last_length; lia].
  unfold binary_inv. rewrite Hl, last_length.
  split.
  { rewrite Hnar, Hbr.
    replace (S (length (bs_x_list s)) - 1)%nat
      with (S (length (bs_x_list s) - 1)) by lia.
    reflexivity. }
  split; [apply last_last|].
  split; [rewrite nth_error_app1 by assumption; assumption|].
  split; [lia|].
  intros k Hk. destruct (Nat.eq_dec (S k) (length (bs_x_list s))) as [E|E].
  - rewrite E, nth_snoc_new, nth_snoc_old by lia.
    replace k with (length (bs_x_list s) - 1)%nat at 1 by lia.
    rewrite nth_pred_last, Hlast, Hm, Hbr.
    replace (length (bs_x_list s) - 1)%nat with k by lia. auto.
  - rewrite !nth_snoc_old by lia. apply Hall. lia.
Qed.

(** [root_binary] returns on every input: it never raises nor runs out
    of fuel, and the state it stops in satisfies the invariant and fails
    the loop test. *)
Lemma root_binary_returns x b tol max_iter :
  exists s, while (loop_fuel max_iter) (binary_cond x b tol max_iter)
                  (binary_body x b) (binary_init x) = Ok s /\
            root_binary x b tol max_iter = Ok (bs_x_list s) /\
            binary_inv x b tol max_iter s /\
            binary_cond x b tol max_iter s = false.
Proof.
  unfold root_binary.
  destruct (while_total (binary_cond x b tol max_iter) (binary_body x b)
              (binary_inv x b tol max_iter)
              (fun s => rounds_left max_iter (bs_x_list s)))
    with (fuel := loop_fuel max_iter) (s := binary_init x)
    as (s & -> & Hs & Hc).
  - intros s Hs Hc. now apply binary_inv_round.
  - apply binary_inv_init.
  - unfold rounds_left, loop_fuel. simpl. lia.
  - exists s. auto.
Qed.



(** The converse: a second element means the test held at [x/4]. *)
Lemma root_binary_second_element (x : Q) (b : positive) (tol : Q) (max_iter : Z) (l : list Q) :
  root_binary x b tol max_iter = Ok l -> (2 <= length l)%nat ->
  tol < Qabs (pow (x / 4) b - x) /\ (2 <= max_iter)%Z.
Proof.
  intros Hl Hlen.
  destruct (root_binary_returns x b tol max_iter)
    as (s & _ & Hret & (Hbr & Hlast & Hhd & Hmax & Hall) & Hc).
  rewrite Hl in Hret. injection Hret as ->.
  destruct (Hall 0%nat Hlen) as (Ht & _).
  rewrite (nth_error_nth _ _ 0 Hhd) in Ht.
  assert (Em : (x / 2 + 0) / 2 == x / 4) by field.
  rewrite Em in Ht. split; [assumption|lia].
Qed.

(** ** Binary search: the bracket *)





(** ** Trajectories only grow, one element a round *)





(** The comparison [>] does not tell equal rationals apart. *)
#[global] Instance gt_comp : Proper (Qeq ==> Qeq ==> eq) gt.
Proof. intros a a' Ea c c' Ec. unfold gt. now rewrite Ea, Ec. Qed.

(** ** The worked example: Newton-Raphson *)

Lemma round_up_le (q : Q) : q <= round_up q.
Proof.
  unfold round_up. rewrite Qred_correct.
  assert (Hp : 0 < 10 ^ 40) by reflexivity.
  apply Qle_shift_div_l; [assumption|]. apply Qle_ceiling.
Qed.

Lemma example_d1L (t : Q) :
  d1L t example_x example_b == 4 * t * (t * t - 144).
Proof. unfold d1L, example_x, example_b, pow, num. simpl. ring. Qed.

Lemma example_d2L (t : Q) :
  d2L t example_x example_b == 4 * (3 * (t * t) - 144).
Proof. unfold d2L, example_x, example_b, pow, num. simpl. ring. Qed.

Lemma example_d2L_pos (t : Q) : 12 <= t -> 0 < d2L t example_x example_b.
Proof. intros Ht. rewrite example_d2L. nra. Qed.

Lemma example_update (t : Q) :
  12 <= t ->
  newton_update example_x example_b t == 2 * (t * t * t) / (3 * (t * t) - 144).
Proof.
  intros Ht. unfold newton_update. rewrite example_d1L, example_d2L.
  field. nra.
Qed.

(** Above the root [12] the update stays above it and is monotone. *)
Lemma example_update_ge (t : Q) :
  12 <= t -> 12 <= newton_update example_x example_b t.
Proof.
  intros Ht. rewrite example_update by assumption.
  apply Qle_shift_div_l; [nra|].
  assert (E : 2 * (t * t * t) - 12 * (3 * (t * t) - 144)
              == 2 * ((t - 12) * (t - 12)) * (t + 6)) by ring.
  assert (0 <= (t - 12) * (t - 12) * (t + 6))
    by (repeat apply Qmult_le_0_compat; lra).
  lra.
Qed.

Lemma example_update_mono (s t : Q) :
  12 <= s -> s <= t ->
  newton_update example_x example_b s <= newton_update example_x example_b t.
Proof.
  intros Hs Hst. rewrite !example_update by lra.
  assert (Ds : 0 < 3 * (s * s) - 144) by nra.
  assert (Dt : 0 < 3 * (t * t) - 144) by nra.
  apply Qle_shift_div_l; [assumption|].
  assert (E : 2 * (s * s * s) / (3 * (s * s) - 144) * (3 * (t * t) - 144)
              == 2 * (s * s * s) * (3 * (t * t) - 144) / (3 * (s * s) - 144))
    by (field; lra).
  rewrite E. apply Qle_shift_div_r; [assumption|].
  assert (F : 2 * (t * t * t) * (3 * (s * s) - 144)
              - 2 * (s * s * s) * (3 * (t * t) - 144)
              == 6 * (t - s) * (s * s * (t * t) - 48 * (t * t + t * s + s * s)))
    by ring.
  assert (H1 : 144 <= s * s) by nra.
  assert (H2 : t * s <= t * t) by nra.
  assert (H3 : s * s <= t * t) by nra.
  assert (H4 : 144 * (t * t) <= s * s * (t * t)) by nra.
  assert (0 <= (t - s) * (s * s * (t * t) - 48 * (t * t + t * s + s * s)))
    by (apply Qmult_le_0_compat; lra).
  lra.
Qed.

Lemma example_d1L_mono (s t : Q) :
  12 <= s -> s <= t ->
  d1L s example_x example_b <= d1L t example_x example_b.
Proof.
  intros Hs Hst. rewrite !example_d1L.
  assert (E : 4 * t * (t * t - 144) - 4 * s * (s * s - 144)
              == 4 * (t - s) * (t * t + t * s + s * s - 144)) by ring.
  assert (0 <= (t - s) * (t * t + t * s + s * s - 144))
    by (apply Qmult_le_0_compat; nra).
  lra.
Qed.

Lemma example_upper_ge (k : nat) : 12 <= example_upper k.
Proof.
  induction k as [|k IH]; [discriminate|]. simpl.
  eapply Qle_trans; [|apply round_up_le]. now apply example_update_ge.
Qed.

(** The eleventh bound already passes the stopping test. *)
Lemma example_upper_10 :
  d1L (example_upper 10) example_x example_b <= example_tol.
Proof. vm_compute. discriminate. Qed.

Lemma example_tol_pos : 0 < example_tol.
Proof. reflexivity. Qed.

(** On the example [root_newton] stops within eleven candidates, all of
    them at or above the root [12], the last one within [tol] of it. *)
Lemma example_newton :
  exists l, root_newton example_x example_b example_tol default_max_iter = Ok l /\
            (length l <= 11)%nat /\
            12 <= last l 0 /\ last l 0 - 12 <= example_tol.
Proof.
  destruct (root_newton_returns example_x example_b example_tol default_max_iter)
    as (s & _ & Hret & (Hpos & Hlast & Hhd & Hlen & Hall) & Hc);
    [reflexivity|discriminate|].
  set (l := nw_x_list s) in *.
  assert (Hb : forall k, (k < length l)%nat ->
                         12 <= nth k l 0 /\ nth k l 0 <= example_upper k).
  { induction k as [|k IH]; intros Hk.
    - rewrite (nth_error_nth _ _ 0 Hhd). split; discriminate.
    - destruct (Hall k Hk) as (_ & _ & ->).
      destruct IH as [IH1 IH2]; [lia|].
      fold (newton_update example_x example_b (nth k l 0)).
      split; [now apply example_update_ge|]. simpl.
      eapply Qle_trans; [|apply round_up_le].
      now apply example_update_mono. }
  assert (Hne : (0 < length l)%nat)
    by (destruct l; [discriminate|simpl; lia]).
  assert (Hlen11 : (length l <= 11)%nat).
  { destruct (Nat.le_gt_cases (length l) 11) as [|Hgt]; [assumption|exfalso].
    destruct (Hall 10%nat Hgt) as (Hd & _).
    destruct (Hb 10%nat) as [H1 H2]; [lia|].
    assert (H3 := example_d1L_mono _ _ H1 H2).
    assert (H4 := example_upper_10).
    apply (Qlt_irrefl example_tol). lra. }
  exists l. split; [assumption|]. split; [assumption|].
  destruct (Hb (length l - 1)%nat) as [H1 _]; [lia|].
  rewrite nth_pred_last in H1. split; [assumption|].
  apply newton_cond_false in Hc. fold l in Hc.
  destruct Hc as [Hc|Hc]; [|unfold default_max_iter in Hc; lia].
  rewrite <- Hlast, example_d1L in Hc.
  assert (Htol := example_tol_pos).
  set (t := last l 0) in *.
  assert (H5 : 0 <= (t - 12) * (t - 12)) by (apply Qmult_le_0_compat; lra).
  assert (H6 : 0 <= (t - 12) * (t - 12) * (t - 12))
    by (repeat apply Qmult_le_0_compat; lra).
  assert (E : 4 * t * (t * t - 144)
              == 4 * ((t - 12) * (t - 12) * (t - 12))
                 + 144 * ((t - 12) * (t - 12)) + 1152 * (t - 12)) by ring.
  lra.
Qed.

(** ** The worked example: binary search *)

Lemma list_equiv_refl (l : list Q) : list_equiv l l.
Proof. induction l; constructor; [reflexivity|assumption]. Qed.

Lemma list_equiv_length (l l' : list Q) :
  list_equiv l l' -> length l = length l'.
Proof. apply Forall2_length. Qed.

Lemma list_equiv_last (l l' : list Q) :
  list_equiv l l' -> last l 0 == last l' 0.
Proof.
  induction 1 as [|a a' l l' Ha Hl IH]; [reflexivity|].
  destruct Hl as [|c c' l l' Hc Hl]; [exact Ha|exact IH].
Qed.

Lemma list_equiv_snoc (l l' : list Q) (a a' : Q) :
  list_equiv l l' -> a == a' -> list_equiv (l ++ [a]) (l' ++ [a']).
Proof.
  intros Hl Ha. apply Forall2_app; [assumption|].
  constructor; [assumption|constructor].
Qed.

Lemma list_equiv_reduce (l : list Q) : list_equiv l (map Qred l).
Proof.
  induction l; constructor; [symmetry; apply Qred_correct|assumption].
Qed.

Lemma list_equiv_trans (l1 l2 l3 : list Q) :
  list_equiv l1 l2 -> list_equiv l2 l3 -> list_equiv l1 l3.
Proof.
  intros H. revert l3. induction H as [|a b l1 l2 Hab _ IH]; intros l3 H3.
  - assumption.
  - inversion H3 as [|b' c l2' l3' Hbc Hl]; subst.
    constructor; [now rewrite Hab|now apply IH].
Qed.

Lemma binary_cond_equiv x b tol max_iter s s' :
  binary_equiv s s' ->
  binary_cond x b tol max_iter s = binary_cond x b tol max_iter s'.
Proof.
  intros (_ & _ & Hm & Hl). unfold binary_cond, len_lt.
  now rewrite Hm, (list_equiv_length _ _ Hl).
Qed.

Lemma midpoint_equiv (h l h' l' : Q) :
  h == h' -> l == l' -> midpoint (h, l) == midpoint (h', l').
Proof. intros Hh Hl. unfold midpoint. simpl. now rewrite Hh, Hl. Qed.

Lemma narrow_equiv x b (h l h' l' : Q) :
  h == h' -> l == l' ->
  fst (narrow x b (h, l)) == fst (narrow x b (h', l')) /\
  snd (narrow x b (h, l)) == snd (narrow x b (h', l')).
Proof.
  intros Hh Hl. assert (Hm := midpoint_equiv _ _ _ _ Hh Hl).
  unfold narrow.
  rewrite (gt_comp _ _ (pow_comp _ _ Hm b b eq_refl) x x (Qeq_refl x)).
  destruct (gt _ x); cbn [fst snd]; split; assumption.
Qed.

Lemma binary_reduce_equiv (s : binary_state) : binary_equiv s (binary_reduce s).
Proof.
  unfold binary_equiv, binary_reduce. cbn [bs_high bs_low bs_mean bs_x_list].
  rewrite !Qred_correct. repeat split; try reflexivity.
  apply list_equiv_reduce.
Qed.

Lemma binary_body_equiv x b s s' :
  binary_equiv s s' ->
  result_rel binary_equiv (binary_body x b s) (binary_body_reduced x b s').
Proof.
  intros (Hh & Hlo & _ & Hl). unfold binary_body_reduced.
  destruct (binary_body_ok x b s) as (t & -> & Hm & Hnar & Hlt).
  destruct (binary_body_ok x b s') as (t' & -> & Hm' & Hnar' & Hlt').
  cbn [bind result_rel].
  destruct (narrow_equiv x b _ _ _ _ Hh Hlo) as [H1 H2].
  rewrite <- Hnar, <- Hnar' in H1, H2. cbn [fst snd] in H1, H2.
  assert (Hmm : bs_mean t == bs_mean t')
    by (rewrite Hm, Hm'; now apply midpoint_equiv).
  destruct (binary_reduce_equiv t') as (R1 & R2 & R3 & R4).
  unfold binary_equiv.
  rewrite <- R1, <- R2, <- R3. repeat split; try assumption.
  apply list_equiv_trans with (bs_x_list t'); [|assumption].
  rewrite Hlt, Hlt'. now apply list_equiv_snoc.
Qed.

Section Simulation.
Context {S S' : Type} (R : S -> S' -> Prop).
Variables (cond : S -> bool) (body : S -> result S).
Variables (cond' : S' -> bool) (body' : S' -> result S').
Hypothesis cond_rel : forall s s', R s s' -> cond s = cond' s'.
Hypothesis body_rel : forall s s', R s s' -> result_rel R (body s) (body' s').

(** Loops whose tests agree and whose bodies keep related states
    related end alike. *)
Lemma while_rel fuel s s' :
  R s s' -> result_rel R (while fuel cond body s) (while fuel cond' body' s').
Proof.
  revert s s'. induction fuel as [|fuel IH]; intros s s' Hs; simpl; [exact I|].
  rewrite <- (cond_rel _ _ Hs). destruct (cond s); [|exact Hs].
  assert (Hb := body_rel _ _ Hs).
  destruct (body s) as [t|e|], (body' s') as [t'|e'|]; simpl in *;
    try contradiction; try assumption.
  now apply IH.
Qed.
End Simulation.

(** The run of the example on reduced fractions, evaluated. *)
Lemma example_binary_reduced :
  exists s,
    while (loop_fuel default_max_iter)
          (binary_cond example_x example_b example_tol default_max_iter)
          (binary_body_reduced example_x example_b)
          (binary_init example_x) = Ok s /\
    length (bs_x_list s) = 41%nat /\
    last (bs_x_list s) 0 = 1649267441667 # 137438953472.
Proof.
  eexists. split; [vm_compute; reflexivity|]. split; reflexivity.
Qed.

Lemma example_binary :
  exists l, root_binary example_x example_b example_tol default_max_iter = Ok l /\
            length l = 41%nat /\ last l 0 == 12 + 3 / 2 ^ 37.
Proof.
  destruct example_binary_reduced as (s' & Hw' & Hlen & Hlast).
  assert (H := while_rel binary_equiv
                 (binary_cond example_x example_b example_tol default_max_iter)
                 (binary_body example_x example_b)
                 (binary_cond example_x example_b example_tol default_max_iter)
                 (binary_body_reduced example_x example_b)
                 (binary_cond_equiv _ _ _ _) (binary_body_equiv _ _)
                 (loop_fuel default_max_iter)
                 (binary_init example_x) (binary_init example_x)).
  rewrite Hw' in H. unfold root_binary.
  destruct (while _ _ (binary_body _ _) _) as [s| |]; simpl in H;
    try (exfalso; apply H; fail).
  - destruct H as (_ & _ & _ & Hl);
      [repeat split; try reflexivity; apply list_equiv_refl|].
    exists (bs_x_list s). split; [reflexivity|].
    split; [now rewrite (list_equiv_length _ _ Hl)|].
    rewrite (list_equiv_last _ _ Hl), Hlast. reflexivity.
  - exfalso. apply H. repeat split; try reflexivity; apply list_equiv_refl.
  - exfalso. apply H. repeat split; try reflexivity; apply list_equiv_refl.
Qed.

(** C6.  On [x = 144], [b = 2], [tol = 10**-9] and the default
    [max_iter = 2000]: [root_newton] returns at most 11 elements, the
    last within [10**-9] of [12]; [root_binary] returns at most 41
    elements (41 exactly), the last at [3/2**37], about [2.18e-11], of
    [12]. *)
Theorem example_144 :
  exists ln lb,
    root_newton 144 2 (10 ^ (-9)) default_max_iter = Ok ln /\
    root_binary 144 2 (10 ^ (-9)) default_max_iter = Ok lb /\
    Qabs (last ln 0 - 12) <= 10 ^ (-9) /\ (length ln <= 11)%nat /\
    Qabs (last lb 0 - 12) == 3 / 2 ^ 37 /\
    2 / 10 ^ 11 <= Qabs (last lb 0 - 12) <= 22 / 10 ^ 12 /\
    (length lb <= 41)%nat.
Proof.
  destruct example_newton as (ln & Hn & Hlen & Hge & Hle).
  destruct example_binary as (lb & Hb & Hlenb & Hlast).
  exists ln, lb. split; [exact Hn|]. split; [exact Hb|].
  split; [rewrite Qabs_pos by lra; exact Hle|]. split; [assumption|].
  assert (E : Qabs (last lb 0 - 12) == 3 / 2 ^ 37).
  { rewrite Hlast.
    assert (E : 12 + 3 / 2 ^ 37 - 12 == 3 / 2 ^ 37) by ring.
    rewrite E. apply Qabs_pos. discriminate. }
  split; [assumption|]. rewrite E.
  split; [split; discriminate|lia].
Qed.

(** ** The lambdas as derivatives *)

(** X11.  For every [b] the second lambda is the derivative of the first,
    and for [b = 2] the first lambda is the derivative of the loss [L]:
    on the notebook's exponent the update [x_k - d1L/d2L] is Newton's
    step for [L' = 0]. *)
Theorem lambdas_derivatives :
  (forall (x : R) (b : positive) (t : R),
      derivable_pt_lim (fun u => Real.d1L u x b) t (Real.d2L t x b)) /\
  (forall x t : R,
      derivable_pt_lim (fun u => Real.L u x 2) t (Real.d1L t x 2)) /\
  (forall (t x : Q) (b : positive),
      Q2R (L t x b) = Real.L (Q2R t) (Q2R x) b /\
      Q2R (d1L t x b) = Real.d1L (Q2R t) (Q2R x) b /\
      Q2R (d2L t x b) = Real.d2L (Q2R t) (Q2R x) b).
Proof.
  split; [exact d1L_derivative|]. split; [exact d1L_derivative_of_L_b2|].
  intros t x b. split; [apply Q2R_L|]. split; [apply Q2R_d1L|apply Q2R_d2L].
Qed.

(** * The code on Python's numbers: properties *)

(** ** The [while] loop *)

Section PyWhile.
Context {S : Type}.
Variables (cond : S -> Py.result bool) (body : S -> Py.result S).

Lemma py_while_steps fuel s s' :
  Py.while fuel cond body s = Some (Py.Ok s') ->
  exists k, Py.steps cond body k s s' /\ cond s' = Py.Ok false /\ (k < fuel)%nat.
Proof.
  revert s. induction fuel as [|fuel IH]; intros s; simpl; [discriminate|].
  destruct (cond s) as [[|]|e] eqn:Hc; try discriminate.
  - destruct (body s) as [s1|e] eqn:Hb; try discriminate.
    intros H. destruct (IH _ H) as (k & Hk & Hc' & Hlt).
    exists (Datatypes.S k).
    split; [econstructor; eauto|]. split; [assumption|lia].
  - intros [= <-]. exists O. split; [constructor|]. split; [assumption|lia].
Qed.

Lemma py_steps_invariant (I : S -> Prop) :
  (forall s s', I s -> cond s = Py.Ok true -> body s = Py.Ok s' -> I s') ->
  forall k s s', Py.steps cond body k s s' -> I s -> I s'.
Proof.
  intros HI k s s' H. induction H; eauto.
Qed.


Lemma py_steps_snoc k s s1 s' :
  Py.steps cond body k s s1 -> cond s1 = Py.Ok true -> body s1 = Py.Ok s' ->
  Py.steps cond body (Datatypes.S k) s s'.
Proof.
  induction 1 as [s|k s s2 s1 Hc Hb _ IH]; intros Hc1 Hb1.
  - eapply Py.steps_S; eauto. constructor.
  - eapply Py.steps_S; eauto.
Qed.

Lemma py_steps_last k s s' :
  Py.steps cond body (Datatypes.S k) s s' ->
  exists s1, Py.steps cond body k s s1 /\ cond s1 = Py.Ok true /\
             body s1 = Py.Ok s'.
Proof.
  revert s. induction k as [|k IH]; intros s H;
    inversion H as [|k' s0 s1 s0' Hc Hb Hk]; subst.
  - inversion Hk; subst. exists s. split; [constructor|]. now split.
  - destruct (IH _ Hk) as (s2 & H2 & Hc2 & Hb2).
    exists s2. split; [|now split]. econstructor; eauto.
Qed.

(** A measure that every round decreases bounds the rounds: with fuel
    above it the loop returns or raises. *)
Lemma py_while_fuel (m : S -> nat) :
  (forall s s', cond s = Py.Ok true -> body s = Py.Ok s' -> (m s' < m s)%nat) ->
  forall fuel s, (m s < fuel)%nat -> Py.while fuel cond body s <> None.
Proof.
  intros Hm. induction fuel as [|fuel IH]; intros s Hlt; [lia|].
  simpl. destruct (cond s) as [[|]|e] eqn:Hc; try discriminate.
  destruct (body s) as [s1|e] eqn:Hb; try discriminate.
  apply IH. specialize (Hm _ _ Hc Hb). lia.
Qed.
End PyWhile.

(** ** Newton-Raphson on Python's numbers *)

Section PyNewton.
Context {A : Py.arith}.
Variables (x : Py.num A) (b : positive) (tol : Py.num A) (max_iter : Z).

Lemma py_newton_cond_true s :
  Py.newton_cond x b tol max_iter s = Py.Ok true ->
  exists d, Py.d1L (Py.nw_x_k s) x b = Py.Ok d /\ Py.gt A d tol = Py.Ok true /\
            (Z.of_nat (length (Py.nw_x_list s)) < max_iter)%Z.
Proof.
  unfold Py.newton_cond, Py.len_lt.
  destruct (Py.d1L _ x b) as [d|e]; simpl; [|discriminate].
  destruct (Py.gt A d tol) as [[|]|e] eqn:Hg; simpl; try discriminate.
  intros [= H]. exists d. apply Z.ltb_lt in H. split; [reflexivity|]. split; [exact Hg|exact H].
Qed.

Lemma py_newton_cond_false s :
  Py.newton_cond x b tol max_iter s = Py.Ok false ->
  exists d g, Py.d1L (Py.nw_x_k s) x b = Py.Ok d /\ Py.gt A d tol = Py.Ok g /\
              (g = false \/ (max_iter <= Z.of_nat (length (Py.nw_x_list s)))%Z).
Proof.
  unfold Py.newton_cond, Py.len_lt.
  destruct (Py.d1L _ x b) as [d|e]; simpl; [|discriminate].
  destruct (Py.gt A d tol) as [[|]|e] eqn:Hg; simpl; try discriminate.
  - intros [= H]. exists d, true. apply Z.ltb_ge in H.
    split; [reflexivity|]. split; [exact Hg|right; exact H].
  - intros _. exists d, false.
    split; [reflexivity|]. split; [exact Hg|left; reflexivity].
Qed.

Lemma py_newton_body_ok s s' :
  Py.newton_body x b s = Py.Ok s' ->
  exists d1 d2 q t,
    Py.d1L (Py.nw_x_k s) x b = Py.Ok d1 /\
    Py.d2L (Py.nw_x_k s) x b = Py.Ok d2 /\
    Py.truediv A d1 d2 = Py.Ok q /\
    Py.sub A (Py.nw_x_k s) q = Py.Ok t /\
    s' = Py.NewtonState t (Py.nw_x_list s ++ [t]).
Proof.
  unfold Py.newton_body.
  destruct (Py.d1L _ x b) as [d1|e]; simpl; [|discriminate].
  destruct (Py.d2L _ x b) as [d2|e]; simpl; [|discriminate].
  destruct (Py.truediv A d1 d2) as [q|e] eqn:Hq; simpl; [|discriminate].
  destruct (Py.sub A _ q) as [t|e] eqn:Ht; simpl; [|discriminate].
  intros [= <-]. exists d1, d2, q, t. repeat split; assumption || reflexivity.
Qed.

(** A returned list is the list of the state in which a run of the loop
    from the starting state ends with a false test. *)
Lemma py_newton_run l :
  Py.root_newton x b tol max_iter = Some (Py.Ok l) ->
  exists x0 k s,
    Py.truediv A x (Py.of_int A 2) = Py.Ok x0 /\
    Py.steps (Py.newton_cond x b tol max_iter) (Py.newton_body x b) k
             (Py.NewtonState x0 [x0]) s /\
    Py.newton_cond x b tol max_iter s = Py.Ok false /\
    Py.nw_x_list s = l.
Proof.
  unfold Py.root_newton, Py.newton_init.
  destruct (Py.truediv A x (Py.of_int A 2)) as [x0|e] eqn:Hx0; cbn [Py.bind];
    [|discriminate].
  destruct (Py.while (loop_fuel max_iter) (Py.newton_cond x b tol max_iter)
                     (Py.newton_body x b) (Py.NewtonState x0 [x0]))
    as [[s|e]|] eqn:W; try discriminate.
  intros [= E]. destruct (py_while_steps _ _ _ _ _ W) as (k & Hk & Hc & _).
  exists x0, k, s. repeat split; assumption.
Qed.

Lemma py_newton_fuel : Py.root_newton x b tol max_iter <> None.
Proof.
  unfold Py.root_newton.
  destruct (Py.newton_init x) as [s0|e]; [|discriminate].
  assert (H : Py.while (loop_fuel max_iter) (Py.newton_cond x b tol max_iter)
                       (Py.newton_body x b) s0 <> None).
  { apply py_while_fuel
      with (m := fun s => (Z.to_nat max_iter - length (Py.nw_x_list s))%nat).
    - intros s s' Hc Hb.
      destruct (py_newton_cond_true _ Hc) as (_ & _ & _ & Hlen).
      destruct (py_newton_body_ok _ _ Hb) as (_ & _ & _ & t & _ & _ & _ & _ & ->).
      simpl. rewrite last_length. lia.
    - unfold loop_fuel. lia. }
  destruct (Py.while (loop_fuel max_iter) (Py.newton_cond x b tol max_iter)
                     (Py.newton_body x b) s0)
    as [[s|e]|]; [discriminate|discriminate|contradiction].
Qed.

(** What holds of the state all along a run from the starting state. *)
Lemma py_newton_invariant x0 k s :
  Py.steps (Py.newton_cond x b tol max_iter) (Py.newton_body x b) k
           (Py.NewtonState x0 [x0]) s ->
  nth_error (Py.nw_x_list s) (length (Py.nw_x_list s) - 1) = Some (Py.nw_x_k s) /\
  nth_error (Py.nw_x_list s) 0 = Some x0 /\
  (Z.of_nat (length (Py.nw_x_list s)) <= Z.max 1 max_iter)%Z /\
  forall j t t',
    nth_error (Py.nw_x_list s) j = Some t ->
    nth_error (Py.nw_x_list s) (S j) = Some t' ->
    exists d1 d2 q,
      Py.d1L t x b = Py.Ok d1 /\ Py.gt A d1 tol = Py.Ok true /\
      (Z.of_nat (S j) < max_iter)%Z /\
      Py.d2L t x b = Py.Ok d2 /\ Py.truediv A d1 d2 = Py.Ok q /\
      Py.sub A t q = Py.Ok t'.
Proof.
  intros Hs.
  apply (py_steps_invariant _ _
    (fun s =>
       nth_error (Py.nw_x_list s) (length (Py.nw_x_list s) - 1)
       = Some (Py.nw_x_k s) /\
       nth_error (Py.nw_x_list s) 0 = Some x0 /\
       (Z.of_nat (length (Py.nw_x_list s)) <= Z.max 1 max_iter)%Z /\
       forall j t t',
         nth_error (Py.nw_x_list s) j = Some t ->
         nth_error (Py.nw_x_list s) (S j) = Some t' ->
         exists d1 d2 q,
           Py.d1L t x b = Py.Ok d1 /\ Py.gt A d1 tol = Py.Ok true /\
           (Z.of_nat (S j) < max_iter)%Z /\
           Py.d2L t x b = Py.Ok d2 /\ Py.truediv A d1 d2 = Py.Ok q /\
           Py.sub A t q = Py.Ok t')) in Hs; [exact Hs| |].
  - clear. intros s s' (Hlast & Hhd & Hlen & Hall) Hc Hb.
    destruct (py_newton_cond_true _ Hc) as (d & Hd & Hg & Hlt).
    destruct (py_newton_body_ok _ _ Hb)
      as (d1 & d2 & q & t & Hd1 & Hd2 & Hq & Ht & ->).
    rewrite Hd in Hd1. injection Hd1 as <-.
    destruct s as [xk l]. cbn [Py.nw_x_k Py.nw_x_list] in *.
    assert (Hne : (0 < length l)%nat).
    { destruct l; [discriminate|simpl; lia]. }
    rewrite last_length.
    split; [|split; [|split]].
    + replace (S (length l) - 1)%nat with (length l) by lia.
      rewrite nth_error_app2, Nat.sub_diag by lia. reflexivity.
    + rewrite nth_error_app1 by assumption. assumption.
    + lia.
    + intros j u u' Hu Hu'.
      assert (Hj : (S j < S (length l))%nat).
      { rewrite <- (last_length l t). apply nth_error_Some. now rewrite Hu'. }
      destruct (Nat.eq_dec (S j) (length l)) as [E|E].
      * rewrite nth_error_app1 in Hu by lia.
        rewrite nth_error_app2, E, Nat.sub_diag in Hu' by lia.
        injection Hu' as <-.
        replace j with (length l - 1)%nat in Hu by lia.
        rewrite Hlast in Hu. injection Hu as <-.
        exists d, d2, q. rewrite E. repeat split; assumption.
      * rewrite nth_error_app1 in Hu, Hu' by lia. now apply Hall.
  - cbn [Py.nw_x_k Py.nw_x_list length]. split; [reflexivity|].
    split; [reflexivity|]. split; [simpl; lia|].
    intros j t t' _ H. destruct j; discriminate.
Qed.
End PyNewton.

(** C1, amended.  [root_newton] never loops for ever: it returns a list
    or raises.  Whenever it returns a list, the first element is [x/2];
    each next element is [x_k - d1L(x_k, x, b)/d2L(x_k, x, b)] as the
    code computes it from the element before, which passed the test
    [d1L(x_k, x, b) > tol] with the list still shorter than [max_iter];
    at the last element the test [d1L > tol] is false or the list has
    [max_iter] elements; and with [max_iter >= 1] the list has at most
    [max_iter] elements. *)
Theorem newton_returned_trajectory (A : Py.arith) (x : Py.num A) (b : positive)
        (tol : Py.num A) (max_iter : Z) :
  Py.root_newton x b tol max_iter <> None /\
  forall l, Py.root_newton x b tol max_iter = Some (Py.Ok l) ->
    exists x0,
      Py.truediv A x (Py.of_int A 2) = Py.Ok x0 /\
      nth_error l 0 = Some x0 /\
      (forall j t t',
         nth_error l j = Some t -> nth_error l (S j) = Some t' ->
         exists d1 d2 q,
           Py.d1L t x b = Py.Ok d1 /\ Py.gt A d1 tol = Py.Ok true /\
           (Z.of_nat (S j) < max_iter)%Z /\
           Py.d2L t x b = Py.Ok d2 /\ Py.truediv A d1 d2 = Py.Ok q /\
           Py.sub A t q = Py.Ok t') /\
      (exists t d g,
         nth_error l (length l - 1) = Some t /\
         Py.d1L t x b = Py.Ok d /\ Py.gt A d tol = Py.Ok g /\
         (g = false \/ (max_iter <= Z.of_nat (length l))%Z)) /\
      ((1 <= max_iter)%Z -> (Z.of_nat (length l) <= max_iter)%Z).
Proof.
  split; [apply py_newton_fuel|]. intros l Hl.
  destruct (py_newton_run x b tol max_iter l Hl) as (x0 & k & s & Hx0 & Hk & Hc & <-).
  destruct (py_newton_invariant x b tol max_iter x0 k s Hk)
    as (Hlast & Hhd & Hlen & Hall).
  exists x0. split; [assumption|]. split; [assumption|]. split; [assumption|].
  split; [|lia].
  destruct (py_newton_cond_false x b tol max_iter s Hc) as (d & g & Hd & Hg & Hex).
  exists (Py.nw_x_k s), d, g. repeat split; assumption.
Qed.

(** On the notebook's call the binary64 run returns eleven elements. *)
Lemma newton_returned_trajectory_witness :
  exists l x0,
    Py.root_newton (A := Py.binary64) (Py.PInt 144) 2 (Py.lit 1 (10 ^ 9)) 2000
    = Some (Py.Ok l) /\
    length l = 11%nat /\
    Py.truediv Py.binary64 (Py.PInt 144) (Py.PInt 2) = Py.Ok x0 /\
    nth_error l 0 = Some x0 /\
    (Z.of_nat (length l) <= 2000)%Z.
Proof.
  destruct (Py.root_newton (A := Py.binary64) (Py.PInt 144) 2
                           (Py.lit 1 (10 ^ 9)) 2000) as [[l|e]|] eqn:E.
  - destruct (proj2 (newton_returned_trajectory Py.binary64 (Py.PInt 144) 2
                       (Py.lit 1 (10 ^ 9)) 2000) l E)
      as (x0 & Hx0 & Hhd & _ & _ & Hlen).
    exists l, x0. split; [reflexivity|].
    split; [vm_compute in E; injection E as <-; reflexivity|].
    split; [exact Hx0|]. split; [exact Hhd|]. apply Hlen. lia.
  - vm_compute in E. discriminate.
  - vm_compute in E. discriminate.
Defined.

(** C1 as stated fails at [x = 1e200], [b = 2], [tol = 0.1],
    [max_iter = 2]: the inputs are positive, but [x_k**(b+1)] exceeds the
    range of a float and [OverflowError] is raised; nothing is returned. *)
Lemma newton_overflow :
  0 < Py.value (Py.lit (10 ^ 200) 1) /\ 0 < Py.value (Py.lit 1 10) /\
  Py.root_newton (A := Py.binary64) (Py.lit (10 ^ 200) 1) 2 (Py.lit 1 10) 2
  = Some (Py.Raise Py.OverflowError).
Proof.
  split; [vm_compute; reflexivity|]. split; vm_compute; reflexivity.
Qed.

(** ** The signed stopping test *)

Lemma py_newton_stops_at_once (A : Py.arith) (x : Py.num A) (b : positive)
      (tol : Py.num A) (max_iter : Z) (x0 d : Py.num A) :
  Py.truediv A x (Py.of_int A 2) = Py.Ok x0 ->
  Py.d1L x0 x b = Py.Ok d -> Py.gt A d tol = Py.Ok false ->
  Py.root_newton x b tol max_iter = Some (Py.Ok [x0]).
Proof.
  intros Hx0 Hd Hg. unfold Py.root_newton, Py.newton_init, loop_fuel.
  rewrite Hx0. cbn [Py.bind Py.while].
  unfold Py.newton_cond. cbn [Py.nw_x_k]. rewrite Hd. cbn [Py.bind].
  rewrite Hg. reflexivity.
Qed.

(** C9, amended.  [root_newton] tests the signed value: whenever
    [d1L(x/2, x, b)] evaluates to a number for which [d1L > tol] is
    false, it runs no round and returns [[x/2]]; and only then does it
    return a one-element list while [max_iter >= 2].  The exact value
    of [d1L(x/2, x, b)] is not positive as soon as [(x/2)**b <= x] with
    [x > 0], which holds for [b >= 2] and [x <= 2**(b/(b-1))], and for
    [b = 1]. *)
Theorem newton_signed_test (A : Py.arith) (x : Py.num A) (b : positive)
        (tol : Py.num A) (max_iter : Z) :
  (forall x0 d,
      Py.truediv A x (Py.of_int A 2) = Py.Ok x0 ->
      Py.d1L x0 x b = Py.Ok d -> Py.gt A d tol = Py.Ok false ->
      Py.root_newton x b tol max_iter = Some (Py.Ok [x0])) /\
  (forall x0,
      Py.root_newton x b tol max_iter = Some (Py.Ok [x0]) ->
      (2 <= max_iter)%Z ->
      exists d, Py.d1L x0 x b = Py.Ok d /\ Py.gt A d tol = Py.Ok false) /\
  (forall (q : Q) (c : positive),
      0 < q -> pow (q / 2) c <= q -> d1L (q / 2) q c <= 0) /\
  (forall (q : Q) (c : positive),
      0 < q -> (2 <= c)%positive ->
      (Q2R q <= Rpower 2 (IZR (Zpos c) / IZR (Zpos c - 1)))%R ->
      pow (q / 2) c <= q) /\
  (forall q : Q, 0 < q -> pow (q / 2) 1 <= q).
Proof.
  split; [apply py_newton_stops_at_once|].
  split; [|split; [apply d1L_start_nonpos|split;
                   [apply start_below_root_bound|apply start_below_b1]]].
  intros x0 Hl Hmax.
  destruct (py_newton_run x b tol max_iter _ Hl) as (x1 & k & s & Hx1 & Hk & Hc & Hs).
  destruct (py_newton_invariant x b tol max_iter x1 k s Hk)
    as (Hlast & Hhd & _ & _).
  rewrite Hs in Hlast, Hhd. simpl in Hlast, Hhd.
  destruct (py_newton_cond_false x b tol max_iter s Hc) as (d & g & Hd & Hg & Hex).
  injection Hlast as E. rewrite <- E in Hd.
  exists d. split; [assumption|].
  destruct Hex as [-> | Hex]; [assumption|].
  rewrite Hs in Hex. simpl in Hex. lia.
Qed.

(** On a float input below the root of its starting guess: [x = 3],
    [b = 2], where [d1L(1.5, 3, 2) = -4.5]. *)
Lemma newton_signed_test_witness :
  Py.root_newton (A := Py.binary64) (Py.PInt 3) 2 (Py.lit 1 10) 7
  = Some (Py.Ok [Py.PFloat 1.5]).
Proof.
  apply (proj1 (newton_signed_test Py.binary64 (Py.PInt 3) 2 (Py.lit 1 10) 7)
           (Py.PFloat 1.5) (Py.PFloat (-4.5))); vm_compute; reflexivity.
Defined.

(** C9 as stated fails at [x = 1e200], [b = 1] (default [tol] and
    [max_iter]): [x > 0] and [(x/2)**1 <= x], but the test evaluates
    [(x/2)**2], which exceeds the range of a float, and [OverflowError]
    is raised instead of [[x/2]] being returned. *)
Lemma newton_signed_test_overflow :
  0 < Py.value (Py.lit (10 ^ 200) 1) /\
  Py.value (Py.lit (10 ^ 200) 1) / 2 <= Py.value (Py.lit (10 ^ 200) 1) /\
  Py.root_newton (A := Py.binary64) (Py.lit (10 ^ 200) 1) 1
                 (Py.lit 1 (10 ^ 17)) 2000
  = Some (Py.Raise Py.OverflowError).
Proof.
  split; [vm_compute; reflexivity|].
  split; [vm_compute; discriminate|vm_compute; reflexivity].
Qed.

(** ** Binary search on Python's numbers *)

Section PyBinary.
Context {A : Py.arith}.
Variables (x : Py.num A) (b : positive) (tol : Py.num A) (max_iter : Z).

Lemma py_binary_cond_true s :
  Py.binary_cond x b tol max_iter s = Py.Ok true ->
  exists p d a,
    Py.pow A (Py.bs_mean s) b = Py.Ok p /\ Py.sub A p x = Py.Ok d /\
    Py.abs A d = Py.Ok a /\ Py.gt A a tol = Py.Ok true /\
    (Z.of_nat (length (Py.bs_x_list s)) < max_iter)%Z.
Proof.
  unfold Py.binary_cond, Py.len_lt.
  destruct (Py.pow A _ b) as [p|e]; simpl; [|discriminate].
  destruct (Py.sub A p x) as [d|e] eqn:Hd; simpl; [|discriminate].
  destruct (Py.abs A d) as [a|e] eqn:Ha; simpl; [|discriminate].
  destruct (Py.gt A a tol) as [[|]|e] eqn:Hg; simpl; try discriminate.
  intros [= H]. apply Z.ltb_lt in H. exists p, d, a.
  split; [reflexivity|]. repeat (split; [assumption|]). exact H.
Qed.

Lemma py_binary_cond_false s :
  Py.binary_cond x b tol max_iter s = Py.Ok false ->
  exists p d a g,
    Py.pow A (Py.bs_mean s) b = Py.Ok p /\ Py.sub A p x = Py.Ok d /\
    Py.abs A d = Py.Ok a /\ Py.gt A a tol = Py.Ok g /\
    (g = false \/ (max_iter <= Z.of_nat (length (Py.bs_x_list s)))%Z).
Proof.
  unfold Py.binary_cond, Py.len_lt.
  destruct (Py.pow A _ b) as [p|e]; simpl; [|discriminate].
  destruct (Py.sub A p x) as [d|e] eqn:Hd; simpl; [|discriminate].
  destruct (Py.abs A d) as [a|e] eqn:Ha; simpl; [|discriminate].
  destruct (Py.gt A a tol) as [[|]|e] eqn:Hg; simpl; try discriminate.
  - intros [= H]. apply Z.ltb_ge in H. exists p, d, a, true.
    split; [reflexivity|]. repeat (split; [assumption|]). right. exact H.
  - intros _. exists p, d, a, false.
    split; [reflexivity|]. repeat (split; [assumption|]). left. reflexivity.
Qed.

Lemma py_binary_body_ok s s' :
  Py.binary_body x b s = Py.Ok s' ->
  exists sum m p g,
    Py.add A (Py.bs_high s) (Py.bs_low s) = Py.Ok sum /\
    Py.truediv A sum (Py.of_int A 2) = Py.Ok m /\
    Py.pow A m b = Py.Ok p /\ Py.gt A p x = Py.Ok g /\
    Py.bs_mean s' = m /\ Py.bs_x_list s' = Py.bs_x_list s ++ [m] /\
    (if g
     then Py.bs_high s' = m /\ Py.bs_low s' = Py.bs_low s
     else Py.bs_high s' = Py.bs_high s /\ Py.bs_low s' = m).
Proof.
  unfold Py.binary_body.
  destruct (Py.add A _ _) as [sum|e]; simpl; [|discriminate].
  destruct (Py.truediv A sum _) as [m|e] eqn:Hm; simpl; [|discriminate].
  destruct (Py.pow A m b) as [p|e] eqn:Hp; simpl; [|discriminate].
  destruct (Py.gt A p x) as [g|e] eqn:Hg; simpl; [|discriminate].
  intros [= <-]. exists sum, m, p, g.
  split; [reflexivity|]. repeat (split; [assumption|]).
  destruct g; simpl; repeat split; reflexivity.
Qed.

Lemma py_binary_init_ok s0 :
  Py.binary_init x = Py.Ok s0 ->
  exists high0 sum0 mean0,
    Py.truediv A x (Py.of_int A 2) = Py.Ok high0 /\
    Py.add A high0 (Py.of_int A 0) = Py.Ok sum0 /\
    Py.truediv A sum0 (Py.of_int A 2) = Py.Ok mean0 /\
    s0 = Py.BinaryState high0 (Py.of_int A 0) mean0 [mean0].
Proof.
  unfold Py.binary_init.
  destruct (Py.truediv A x _) as [high0|e]; simpl; [|discriminate].
  destruct (Py.add A high0 _) as [sum0|e] eqn:Hs; simpl; [|discriminate].
  destruct (Py.truediv A sum0 _) as [mean0|e] eqn:Hm; simpl; [|discriminate].
  intros [= <-]. exists high0, sum0, mean0.
  split; [reflexivity|]. repeat (split; [assumption|]). reflexivity.
Qed.

Lemma py_binary_run l :
  Py.root_binary x b tol max_iter = Some (Py.Ok l) ->
  exists s0 k s,
    Py.binary_init x = Py.Ok s0 /\
    Py.steps (Py.binary_cond x b tol max_iter) (Py.binary_body x b) k s0 s /\
    Py.binary_cond x b tol max_iter s = Py.Ok false /\
    Py.bs_x_list s = l.
Proof.
  unfold Py.root_binary.
  destruct (Py.binary_init x) as [s0|e]; [|discriminate].
  destruct (Py.while (loop_fuel max_iter) (Py.binary_cond x b tol max_iter)
                     (Py.binary_body x b) s0) as [[s|e]|] eqn:W;
    try discriminate.
  intros [= E]. destruct (py_while_steps _ _ _ _ _ W) as (k & Hk & Hc & _).
  exists s0, k, s. repeat split; assumption || reflexivity.
Qed.

Lemma py_binary_fuel : Py.root_binary x b tol max_iter <> None.
Proof.
  unfold Py.root_binary.
  destruct (Py.binary_init x) as [s0|e]; [|discriminate].
  assert (H : Py.while (loop_fuel max_iter) (Py.binary_cond x b tol max_iter)
                       (Py.binary_body x b) s0 <> None).
  { apply py_while_fuel
      with (m := fun s => (Z.to_nat max_iter - length (Py.bs_x_list s))%nat).
    - intros s s' Hc Hb.
      destruct (py_binary_cond_true _ Hc) as (_ & _ & _ & _ & _ & _ & _ & Hlen).
      destruct (py_binary_body_ok _ _ Hb)
        as (_ & m & _ & _ & _ & _ & _ & _ & _ & Hl & _).
      rewrite Hl, last_length. lia.
    - unfold loop_fuel. lia. }
  destruct (Py.while (loop_fuel max_iter) (Py.binary_cond x b tol max_iter)
                     (Py.binary_body x b) s0)
    as [[s|e]|]; [discriminate|discriminate|contradiction].
Qed.

(** Along a run there is one element more than rounds, the last one is
    the current mean, and the first one never changes. *)
Lemma py_binary_invariant s0 k s :
  length (Py.bs_x_list s0) = 1%nat ->
  nth_error (Py.bs_x_list s0) 0 = Some (Py.bs_mean s0) ->
  Py.steps (Py.binary_cond x b tol max_iter) (Py.binary_body x b) k s0 s ->
  length (Py.bs_x_list s) = S k /\
  nth_error (Py.bs_x_list s) k = Some (Py.bs_mean s) /\
  nth_error (Py.bs_x_list s) 0 = Some (Py.bs_mean s0) /\
  (Z.of_nat (length (Py.bs_x_list s)) <= Z.max 1 max_iter)%Z.
Proof.
  intros Hlen0 Hhd0. revert s. induction k as [|k IH]; intros s Hs.
  - inversion Hs; subst. rewrite Hlen0. repeat split; try assumption. lia.
  - destruct (py_steps_last _ _ _ _ _ Hs) as (s1 & H1 & Hc & Hb).
    destruct (IH _ H1) as (Hlen & Hlast & Hhd & _).
    destruct (py_binary_cond_true _ Hc) as (_ & _ & _ & _ & _ & _ & _ & Hlt).
    destruct (py_binary_body_ok _ _ Hb)
      as (_ & m & _ & _ & _ & _ & _ & _ & Hm & Hl & _).
    rewrite Hl, last_length, Hlen.
    split; [reflexivity|]. split; [|split].
    + rewrite <- Hlen, nth_error_app2, Nat.sub_diag by lia. now rewrite Hm.
    + rewrite nth_error_app1 by lia. assumption.
    + rewrite Hlen in Hlt. lia.
Qed.
End PyBinary.

(** C2, amended.  [root_binary] never loops for ever: it returns a list
    or raises.  Whenever it returns a list, it started from
    [high = x/2], [low = 0] and [mean = (high+low)/2], the first element;
    the list is that of the state reached from there by one round per
    further element, every round entered on a true test
    [|mean**b - x| > tol] with the list shorter than [max_iter]; a round
    recomputes [mean = (high+low)/2], moves [high] there when
    [mean**b > x] and [low] otherwise, and appends it; at the end the
    last element is the mean, the test on it is false or the list has
    [max_iter] elements, and with [max_iter >= 1] the list has at most
    [max_iter] elements. *)
Theorem binary_returned_trajectory (A : Py.arith) (x : Py.num A) (b : positive)
        (tol : Py.num A) (max_iter : Z) :
  Py.root_binary x b tol max_iter <> None /\
  (forall l, Py.root_binary x b tol max_iter = Some (Py.Ok l) ->
     exists high0 sum0 mean0 s,
       Py.truediv A x (Py.of_int A 2) = Py.Ok high0 /\
       Py.add A high0 (Py.of_int A 0) = Py.Ok sum0 /\
       Py.truediv A sum0 (Py.of_int A 2) = Py.Ok mean0 /\
       nth_error l 0 = Some mean0 /\
       Py.steps (Py.binary_cond x b tol max_iter) (Py.binary_body x b)
                (length l - 1)
                (Py.BinaryState high0 (Py.of_int A 0) mean0 [mean0]) s /\
       Py.bs_x_list s = l /\
       nth_error l (length l - 1) = Some (Py.bs_mean s) /\
       (exists p d a g,
          Py.pow A (Py.bs_mean s) b = Py.Ok p /\ Py.sub A p x = Py.Ok d /\
          Py.abs A d = Py.Ok a /\ Py.gt A a tol = Py.Ok g /\
          (g = false \/ (max_iter <= Z.of_nat (length l))%Z)) /\
       ((1 <= max_iter)%Z -> (Z.of_nat (length l) <= max_iter)%Z)) /\
  (forall s s',
     Py.binary_cond x b tol max_iter s = Py.Ok true ->
     Py.binary_body x b s = Py.Ok s' ->
     (exists p d a,
        Py.pow A (Py.bs_mean s) b = Py.Ok p /\ Py.sub A p x = Py.Ok d /\
        Py.abs A d = Py.Ok a /\ Py.gt A a tol = Py.Ok true /\
        (Z.of_nat (length (Py.bs_x_list s)) < max_iter)%Z) /\
     (exists sum m p g,
        Py.add A (Py.bs_high s) (Py.bs_low s) = Py.Ok sum /\
        Py.truediv A sum (Py.of_int A 2) = Py.Ok m /\
        Py.pow A m b = Py.Ok p /\ Py.gt A p x = Py.Ok g /\
        Py.bs_mean s' = m /\ Py.bs_x_list s' = Py.bs_x_list s ++ [m] /\
        (if g
         then Py.bs_high s' = m /\ Py.bs_low s' = Py.bs_low s
         else Py.bs_high s' = Py.bs_high s /\ Py.bs_low s' = m))).
Proof.
  split; [apply py_binary_fuel|]. split.
  - intros l Hl.
    destruct (py_binary_run x b tol max_iter l Hl) as (s0 & k & s & H0 & Hk & Hc & Hs).
    destruct (py_binary_init_ok x s0 H0) as (high0 & sum0 & mean0 & Hh & Hsum & Hm & ->).
    destruct (py_binary_invariant x b tol max_iter
                (Py.BinaryState high0 (Py.of_int A 0) mean0 [mean0]) k s
                eq_refl eq_refl Hk)
      as (Hlen & Hlast & Hhd & Hmax).
    rewrite Hs in Hlen, Hlast, Hhd, Hmax.
    exists high0, sum0, mean0, s.
    repeat (split; [assumption|]).
    replace (length l - 1)%nat with k by lia.
    repeat (split; [assumption|]).
    split; [|lia].
    destruct (py_binary_cond_false x b tol max_iter s Hc)
      as (p & d & a & g & Hp & Hd & Ha & Hg & Hex).
    rewrite Hs in Hex. exists p, d, a, g. repeat split; assumption.
  - intros s s' Hc Hb. split.
    + now apply py_binary_cond_true.
    + now apply py_binary_body_ok.
Qed.

(** On [x = 32], [b = 2], [tol = 0.1], [max_iter = 3] the binary64 run
    makes two rounds and returns [[8.0, 8.0, 4.0]]. *)
Lemma binary_returned_trajectory_witness :
  exists l s,
    Py.root_binary (A := Py.binary64) (Py.PInt 32) 2 (Py.lit 1 10) 3
    = Some (Py.Ok l) /\
    l = [Py.PFloat 8; Py.PFloat 8; Py.PFloat 4] /\
    Py.steps (Py.binary_cond (A := Py.binary64) (Py.PInt 32) 2 (Py.lit 1 10) 3)
             (Py.binary_body (A := Py.binary64) (Py.PInt 32) 2) 2
             (Py.BinaryState (N := Py.pynum) (Py.PFloat 16) (Py.PInt 0)
                             (Py.PFloat 8) [Py.PFloat 8]) s /\
    Py.bs_x_list s = l.
Proof.
  destruct (Py.root_binary (A := Py.binary64) (Py.PInt 32) 2 (Py.lit 1 10) 3)
    as [[l|e]|] eqn:E.
  - destruct (proj1 (proj2 (binary_returned_trajectory Py.binary64 (Py.PInt 32) 2
                              (Py.lit 1 10) 3)) l E)
      as (high0 & sum0 & mean0 & s & Hh & Hsum & Hm & _ & Hk & Hs & _).
    vm_compute in E. injection E as <-.
    vm_compute in Hh. injection Hh as <-.
    vm_compute in Hsum. injection Hsum as <-.
    vm_compute in Hm. injection Hm as <-.
    exists [Py.PFloat 8; Py.PFloat 8; Py.PFloat 4], s.
    split; [reflexivity|]. split; [reflexivity|]. split; [exact Hk|exact Hs].
  - vm_compute in E. discriminate.
  - vm_compute in E. discriminate.
Defined.

(** C2 as stated fails at [x = 1e200], [b = 2], [tol = 0.1],
    [max_iter = 2]: the first test evaluates [mean**b] for
    [mean = 2.5e199], which exceeds the range of a float;
    [OverflowError] is raised and nothing is returned. *)
Lemma binary_overflow :
  0 < Py.value (Py.lit (10 ^ 200) 1) /\ 0 < Py.value (Py.lit 1 10) /\
  Py.root_binary (A := Py.binary64) (Py.lit (10 ^ 200) 1) 2 (Py.lit 1 10) 2
  = Some (Py.Raise Py.OverflowError).
Proof.
  split; [vm_compute; reflexivity|]. split; vm_compute; reflexivity.
Qed.

(** ** The bracket of the binary search *)





(** ** The exponent [b = 1] *)





(** * Further properties of the code on Python's numbers *)

(** ** Where the loops raise *)

Section PyOutcome.
Context {S : Type}.
Variables (cond : S -> Py.result bool) (body : S -> Py.result S).





End PyOutcome.


(** ** A cap of at most one element *)

(** X3.  With [max_iter <= 1], zero and negative values included, no
    round is run: once [x/2] and the first test evaluate without an
    exception, whatever the test says, [root_newton] returns [[x/2]];
    and once the initial mean and the first test of [root_binary]
    evaluate, it returns the initial mean alone.  For [max_iter <= 0]
    the returned list is thus longer than [max_iter]. *)
Theorem max_iter_at_most_one (A : Py.arith) (x : Py.num A) (b : positive)
        (tol : Py.num A) (max_iter : Z) :
  (max_iter <= 1)%Z ->
  (forall x0 d g,
      Py.truediv A x (Py.of_int A 2) = Py.Ok x0 ->
      Py.d1L x0 x b = Py.Ok d -> Py.gt A d tol = Py.Ok g ->
      Py.root_newton x b tol max_iter = Some (Py.Ok [x0])) /\
  (forall s0 p d a g,
      Py.binary_init x = Py.Ok s0 ->
      Py.pow A (Py.bs_mean s0) b = Py.Ok p -> Py.sub A p x = Py.Ok d ->
      Py.abs A d = Py.Ok a -> Py.gt A a tol = Py.Ok g ->
      Py.root_binary x b tol max_iter = Some (Py.Ok [Py.bs_mean s0])).
Proof.
  intros Hmax. split.
  - intros x0 d g Hx0 Hd Hg.
    unfold Py.root_newton, Py.newton_init, loop_fuel.
    rewrite Hx0. cbn [Py.bind Py.while].
    unfold Py.newton_cond. cbn [Py.nw_x_k Py.nw_x_list]. rewrite Hd.
    cbn [Py.bind]. rewrite Hg. cbn [Py.bind].
    replace (Py.len_lt [x0] max_iter) with false
      by (unfold Py.len_lt; symmetry; apply Z.ltb_ge; simpl; lia).
    destruct g; reflexivity.
  - intros s0 p d a g H0 Hp Hd Ha Hg.
    destruct (py_binary_init_ok x s0 H0) as (high0 & sum0 & mean0 & _ & _ & _ & ->).
    cbn [Py.bs_mean] in *.
    unfold Py.root_binary, loop_fuel. rewrite H0. cbn [Py.while].
    unfold Py.binary_cond. cbn [Py.bs_mean Py.bs_x_list]. rewrite Hp.
    cbn [Py.bind]. rewrite Hd. cbn [Py.bind]. rewrite Ha. cbn [Py.bind].
    rewrite Hg. cbn [Py.bind].
    replace (Py.len_lt [mean0] max_iter) with false
      by (unfold Py.len_lt; symmetry; apply Z.ltb_ge; simpl; lia).
    destruct g; reflexivity.
Qed.

(** In binary64, on the notebook's input with [max_iter = 0]: one
    element each, [72.0] and [36.0]. *)
Lemma max_iter_at_most_one_witness :
  Py.root_newton (A := Py.binary64) (Py.PInt 144) 2 (Py.lit 1 (10 ^ 9)) 0
  = Some (Py.Ok [Py.PFloat 72]) /\
  Py.root_binary (A := Py.binary64) (Py.PInt 144) 2 (Py.lit 1 (10 ^ 9)) 0
  = Some (Py.Ok [Py.PFloat 36]).
Proof.
  destruct (max_iter_at_most_one Py.binary64 (Py.PInt 144) 2
              (Py.lit 1 (10 ^ 9)) 0) as [Hn Hb]; [lia|].
  split.
  - apply (Hn (Py.PFloat 72) (Py.PFloat 1451520) true); vm_compute; reflexivity.
  - apply (Hb (Py.BinaryState (N := Py.pynum) (Py.PFloat 72) (Py.PInt 0)
                              (Py.PFloat 36) [Py.PFloat 36])
              (Py.PFloat 1296) (Py.PFloat 1152) (Py.PFloat 1152) true);
      vm_compute; reflexivity.
Defined.

(** ** The unguarded division *)

(** X5.  For [b = 1], [d2L] is [0.0] at the starting guess: in binary64
    [root_newton(2, 1, tol)] with the negative tolerance [tol = -3.0]
    enters its first round, since [d1L(1.0, 2, 1) = -2.0 > -3.0], and
    raises [ZeroDivisionError] on [d1L/d2L]. *)
Theorem root_newton_b1_zero_division :
  Py.d1L (A := Py.binary64) (Py.PFloat 1) (Py.PInt 2) 1 = Py.Ok (Py.PFloat (-2)) /\
  Py.d2L (A := Py.binary64) (Py.PFloat 1) (Py.PInt 2) 1 = Py.Ok (Py.PFloat 0) /\
  Py.root_newton (A := Py.binary64) (Py.PInt 2) 1 (Py.PFloat (-3)) 2000
  = Some (Py.Raise Py.ZeroDivisionError).
Proof.
  repeat split; vm_compute; reflexivity.
Qed.

(** ** The notebook's run *)

(** X15.  Run in binary64 on the input of the validation cell
    ([x = 144], [b = 2], [tol = 10**-9], default [max_iter]), the two
    functions return what the notebook's stored output shows:
    [root_newton] eleven elements, the last one [12.0];
    [root_binary] forty-one elements, the last one
    [12.000000000021828], at [2.1827872842550278e-11] from [12.0]. *)
Theorem validation_run_binary64 :
  exists res_nwt res_bin,
    Py.root_newton (A := Py.binary64) (Py.PInt 144) 2 (Py.lit 1 (10 ^ 9)) 2000
    = Some (Py.Ok res_nwt) /\
    Py.root_binary (A := Py.binary64) (Py.PInt 144) 2 (Py.lit 1 (10 ^ 9)) 2000
    = Some (Py.Ok res_bin) /\
    length res_nwt = 11%nat /\
    nth_error res_nwt 10 = Some (Py.PFloat 12) /\
    Py.sub Py.binary64 (Py.PFloat 12) (Py.PFloat 12) = Py.Ok (Py.PFloat 0) /\
    length res_bin = 41%nat /\
    nth_error res_bin 40 = Some (Py.lit 12000000000021828 (10 ^ 15)) /\
    Py.sub Py.binary64 (Py.lit 12000000000021828 (10 ^ 15)) (Py.PFloat 12)
    = Py.Ok (Py.lit 21827872842550278 (10 ^ 27)).
Proof.
  destruct (Py.root_newton (A := Py.binary64) (Py.PInt 144) 2
                           (Py.lit 1 (10 ^ 9)) 2000) as [[ln|e]|] eqn:En;
    [|vm_compute in En; discriminate|vm_compute in En; discriminate].
  destruct (Py.root_binary (A := Py.binary64) (Py.PInt 144) 2
                           (Py.lit 1 (10 ^ 9)) 2000) as [[lb|e]|] eqn:Eb;
    [|vm_compute in Eb; discriminate|vm_compute in Eb; discriminate].
  exists ln, lb. split; [reflexivity|]. split; [reflexivity|].
  vm_compute in En. injection En as <-.
  vm_compute in Eb. injection Eb as <-.
  repeat split; vm_compute; reflexivity.
Qed.

(** ** The list only grows at its end *)

Lemma py_newton_grows (A : Py.arith) (x : Py.num A) (b : positive)
      (tol : Py.num A) (max_iter : Z) k s0 s :
  Py.steps (Py.newton_cond x b tol max_iter) (Py.newton_body x b) k s0 s ->
  exists suffix,
    Py.nw_x_list s = Py.nw_x_list s0 ++ suffix /\ length suffix = k.
Proof.
  induction 1 as [s|k s s1 s' Hc Hb _ (suffix & IH & Hlen)].
  - exists []. now rewrite app_nil_r.
  - destruct (py_newton_body_ok x b _ _ Hb) as (_ & _ & _ & t & _ & _ & _ & _ & ->).
    cbn [Py.nw_x_list] in IH. exists (t :: suffix).
    rewrite IH, <- app_assoc. split; [reflexivity|simpl; lia].
Qed.

Lemma py_binary_grows (A : Py.arith) (x : Py.num A) (b : positive)
      (tol : Py.num A) (max_iter : Z) k s0 s :
  Py.steps (Py.binary_cond x b tol max_iter) (Py.binary_body x b) k s0 s ->
  exists suffix,
    Py.bs_x_list s = Py.bs_x_list s0 ++ suffix /\ length suffix = k.
Proof.
  induction 1 as [s|k s s1 s' Hc Hb _ (suffix & IH & Hlen)].
  - exists []. now rewrite app_nil_r.
  - destruct (py_binary_body_ok x b _ _ Hb)
      as (_ & m & _ & _ & _ & _ & _ & _ & _ & Hl & _).
    rewrite Hl in IH. exists (m :: suffix).
    rewrite IH, <- app_assoc. split; [reflexivity|simpl; lia].
Qed.

(** X17.  On Python's numbers, whatever the rounding: [k] rounds of
    either loop leave the elements already in the list where they are
    and add [k] elements at its end; a returned list is not empty and,
    for [max_iter >= 1], has at most [max_iter] elements. *)
Theorem trajectory_grows_at_end (A : Py.arith) (x : Py.num A) (b : positive)
        (tol : Py.num A) (max_iter : Z) :
  (forall k s0 s,
      Py.steps (Py.newton_cond x b tol max_iter) (Py.newton_body x b) k s0 s ->
      exists suffix,
        Py.nw_x_list s = Py.nw_x_list s0 ++ suffix /\ length suffix = k) /\
  (forall k s0 s,
      Py.steps (Py.binary_cond x b tol max_iter) (Py.binary_body x b) k s0 s ->
      exists suffix,
        Py.bs_x_list s = Py.bs_x_list s0 ++ suffix /\ length suffix = k) /\
  (forall l, Py.root_newton x b tol max_iter = Some (Py.Ok l) ->
             l <> [] /\
             ((1 <= max_iter)%Z -> (Z.of_nat (length l) <= max_iter)%Z)) /\
  (forall l, Py.root_binary x b tol max_iter = Some (Py.Ok l) ->
             l <> [] /\
             ((1 <= max_iter)%Z -> (Z.of_nat (length l) <= max_iter)%Z)).
Proof.
  split; [intros k s0 s; apply py_newton_grows|].
  split; [intros k s0 s; apply py_binary_grows|].
  split.
  - intros l Hl.
    destruct (py_newton_run x b tol max_iter l Hl) as (x0 & k & s & _ & Hk & _ & <-).
    destruct (py_newton_invariant x b tol max_iter x0 k s Hk)
      as (_ & Hhd & Hlen & _).
    split; [|lia]. intros E. rewrite E in Hhd. discriminate.
  - intros l Hl.
    destruct (py_binary_run x b tol max_iter l Hl) as (s0 & k & s & H0 & Hk & _ & <-).
    destruct (py_binary_init_ok x s0 H0) as (high0 & sum0 & mean0 & _ & _ & _ & ->).
    destruct (py_binary_invariant x b tol max_iter
                (Py.BinaryState high0 (Py.of_int A 0) mean0 [mean0]) k s
                eq_refl eq_refl Hk)
      as (_ & _ & Hhd & Hlen).
    split; [|lia]. intros E. rewrite E in Hhd. discriminate.
Qed.

(** X16.  On Python's numbers, whatever the rounding: the first round
    of [root_binary] recomputes the mean from the bounds the
    initialisation left, so a returned list of two elements or more has
    its second element equal to its first. *)
Theorem binary_repeats_first_rounded (A : Py.arith) (x : Py.num A)
        (b : positive) (tol : Py.num A) (max_iter : Z) (l : list (Py.num A)) :
  Py.root_binary x b tol max_iter = Some (Py.Ok l) ->
  (2 <= length l)%nat ->
  exists mean0, nth_error l 0 = Some mean0 /\ nth_error l 1 = Some mean0.
Proof.
  intros Hl Hlen.
  destruct (py_binary_run x b tol max_iter l Hl) as (s0 & k & s & H0 & Hk & _ & <-).
  destruct (py_binary_init_ok x s0 H0)
    as (high0 & sum0 & mean0 & _ & Hsum & Hmean & ->).
  destruct (py_binary_invariant x b tol max_iter
              (Py.BinaryState high0 (Py.of_int A 0) mean0 [mean0]) k s
              eq_refl eq_refl Hk)
    as (Hk' & _ & _ & _).
  destruct k as [|k]; [lia|].
  inversion Hk as [|k0 t s1 t' Hc Hb Hrest]; subst.
  destruct (py_binary_body_ok x b _ _ Hb)
    as (sum & m & _ & _ & Hsum' & Hm & _ & _ & _ & Hl1 & _).
  cbn [Py.bs_high Py.bs_low Py.bs_x_list] in Hsum', Hl1.
  rewrite Hsum in Hsum'. injection Hsum' as <-.
  rewrite Hmean in Hm. injection Hm as <-.
  destruct (py_binary_grows A x b tol max_iter _ _ _ Hrest) as (suffix & E & _).
  rewrite E, Hl1. exists mean0. split; reflexivity.
Qed.

(** On the notebook's input in binary64 the list starts
    [36.0, 36.0]. *)
Lemma binary_repeats_first_rounded_witness :
  exists l,
    Py.root_binary (A := Py.binary64) (Py.PInt 144) 2 (Py.lit 1 (10 ^ 9)) 2000
    = Some (Py.Ok l) /\
    nth_error l 0 = Some (Py.PFloat 36) /\ nth_error l 1 = Some (Py.PFloat 36).
Proof.
  destruct (Py.root_binary (A := Py.binary64) (Py.PInt 144) 2
                           (Py.lit 1 (10 ^ 9)) 2000) as [[l|e]|] eqn:E;
    [|vm_compute in E; discriminate|vm_compute in E; discriminate].
  assert (Hlen : (2 <= length l)%nat).
  { vm_compute in E. injection E as <-. simpl. lia. }
  destruct (binary_repeats_first_rounded Py.binary64 (Py.PInt 144) 2
              (Py.lit 1 (10 ^ 9)) 2000 l E Hlen) as (mean0 & H0 & H1).
  exists l. split; [reflexivity|].
  assert (Hm : mean0 = Py.PFloat 36).
  { vm_compute in E. injection E as <-. simpl in H0. now injection H0 as <-. }
  rewrite <- Hm. split; assumption.
Defined.

(** ** The exact reading is the code at exact arithmetic *)






(** ** A bracket that cannot shrink any more *)

(** X19.  In binary64 the bracket of [root_binary] stops shrinking once
    its bounds are neighbouring floats: on [x = 2], [b = 1],
    [tol = 0.1], [max_iter = 60] the root [2] lies above the starting
    bracket [[0, 1]], [low] climbs to the float below [1.0], the next
    mean rounds to [1.0 = x/2], and from index 54 on every element of
    the sixty returned is [1.0]. *)
Theorem binary_search_stalls :
  exists l,
    Py.root_binary (A := Py.binary64) (Py.PInt 2) 1 (Py.lit 1 10) 60
    = Some (Py.Ok l) /\
    length l = 60%nat /\
    skipn 54 l = repeat (Py.PFloat 1) 6 /\
    Py.value (Py.PFloat 1) == Py.value (Py.PInt 2) / 2.
Proof.
  destruct (Py.root_binary (A := Py.binary64) (Py.PInt 2) 1 (Py.lit 1 10) 60)
    as [[l|e]|] eqn:E;
    [|vm_compute in E; discriminate|vm_compute in E; discriminate].
  exists l. split; [reflexivity|].
  vm_compute in E. injection E as <-.
  repeat split; vm_compute; reflexivity.
Qed.
